(** * deb-kg: the Debian [Packages] index parser of [run/scrape_deps_maintainers.py]

    A shallow embedding of [parse_packages_file], [parse_package_data] and the
    [parse] command, and the properties of them that the specification states.

    Conventions of the embedding.
    - A Python [str] is a [string]; every [ascii] stands for one character
      whose code point is below 256.
    - A Python [dict] is an association list with distinct keys kept in
      insertion order ([dict_set] overwrites in place or appends).
    - The values the parser builds (nested dicts, lists and strings, as they are
      dumped to JSON) are terms of [value].
    - A raised exception is a result of the [exc] monad. *)

From Stdlib Require Import String Ascii List Bool Arith NArith ZArith Lia.
Import ListNotations.

Open Scope string_scope.
Open Scope list_scope.

(* ================================================================== *)
(** ** Python strings *)

Module PyStr.

(** [str.isspace] on the code points below 256. *)
Definition isspace (c : ascii) : bool :=
  let n := N_of_ascii c in
  (((9 <=? n) && (n <=? 13)) || ((28 <=? n) && (n <=? 32))
   || (n =? 133) || (n =? 160))%N.

(** The newline character and the one-character string holding it. *)
Definition nl_char : ascii := ascii_of_N 10.
Definition nl : string := String nl_char EmptyString.

(** Truthiness of a string: [if s]. *)
Definition nonempty (s : string) : bool :=
  match s with EmptyString => false | String _ _ => true end.

(** [c in s] for a one-character [c]. *)
Fixpoint contains (c : ascii) (s : string) : bool :=
  match s with
  | EmptyString => false
  | String a r => Ascii.eqb a c || contains c r
  end.

Fixpoint lstrip_with (p : ascii -> bool) (s : string) : string :=
  match s with
  | EmptyString => EmptyString
  | String c r => if p c then lstrip_with p r else s
  end.

Fixpoint rstrip_with (p : ascii -> bool) (s : string) : string :=
  match s with
  | EmptyString => EmptyString
  | String c r =>
      match rstrip_with p r with
      | EmptyString => if p c then EmptyString else String c EmptyString
      | r' => String c r'
      end
  end.

Definition strip_with (p : ascii -> bool) (s : string) : string :=
  rstrip_with p (lstrip_with p s).

(** [s.strip()] *)
Definition strip (s : string) : string := strip_with isspace s.

(** [s.strip(chars)] *)
Definition strip_chars (chars : string) (s : string) : string :=
  strip_with (fun c => contains c chars) s.

(** [s.split(sep)] for a one-character [sep]: never the empty list. *)
Fixpoint split (sep : ascii) (s : string) : list string :=
  match s with
  | EmptyString => [EmptyString]
  | String c r =>
      if Ascii.eqb c sep then EmptyString :: split sep r
      else match split sep r with
           | h :: t => String c h :: t
           | [] => [String c EmptyString]
           end
  end.

(** [s.split(sep, 1)] for a one-character [sep]: one or two pieces. *)
Fixpoint split1 (sep : ascii) (s : string) : list string :=
  match s with
  | EmptyString => [EmptyString]
  | String c r =>
      if Ascii.eqb c sep then [EmptyString; r]
      else match split1 sep r with
           | h :: t => String c h :: t
           | [] => [String c EmptyString]
           end
  end.

(** [s.startswith(p)] *)
Definition startswith (p s : string) : bool := prefix p s.

Definition lower_char (c : ascii) : ascii :=
  let n := N_of_ascii c in
  if ((65 <=? n) && (n <=? 90))%N then ascii_of_N (n + 32) else c.

(** [s.lower()], on the ASCII letters (it is applied to the six relation
    field names only). *)
Fixpoint lower (s : string) : string :=
  match s with
  | EmptyString => EmptyString
  | String c r => String (lower_char c) (lower r)
  end.

End PyStr.
Import PyStr.

(* ================================================================== *)
(** ** Python dicts, in insertion order *)

Section Dict.
Context {V : Type}.

Definition dict : Type := list (string * V).

(** [d.get(k)] *)
Fixpoint dict_get (k : string) (d : dict) : option V :=
  match d with
  | [] => None
  | (k', v) :: r => if String.eqb k' k then Some v else dict_get k r
  end.

(** [k in d] *)
Definition dict_mem (k : string) (d : dict) : bool :=
  match dict_get k d with Some _ => true | None => false end.

(** [d.get(k, dflt)] *)
Definition dict_get_default (k : string) (dflt : V) (d : dict) : V :=
  match dict_get k d with Some v => v | None => dflt end.

(** [d[k] = v]: an existing key keeps its place, a new one goes last. *)
Fixpoint dict_set (k : string) (v : V) (d : dict) : dict :=
  match d with
  | [] => [(k, v)]
  | (k', v') :: r =>
      if String.eqb k' k then (k', v) :: r else (k', v') :: dict_set k v r
  end.

(** [list(d.keys())] and [list(d.values())] *)
Definition dict_keys (d : dict) : list string := map fst d.
Definition dict_values (d : dict) : list V := map snd d.

(** Truthiness of a dict: [if d]. *)
Definition dict_nonempty (d : dict) : bool :=
  match d with [] => false | _ :: _ => true end.

End Dict.
Arguments dict V : clear implicits.

(** [d.update(other)] *)
Definition dict_update {V : Type} (d other : dict V) : dict V :=
  fold_left (fun acc kv => dict_set (fst kv) (snd kv) acc) other d.

(* ================================================================== *)
(** ** Built values and exceptions *)

(** What the parser builds: strings, lists and dicts. *)
#[warnings="-register-all"]
Inductive value : Type :=
| VStr (s : string)
| VList (l : list value)
| VDict (d : list (string * value)).

(** [v[k]] on a built dict, [None] on anything else. *)
Definition value_get (k : string) (v : value) : option value :=
  match v with
  | VDict d => dict_get k d
  | _ => None
  end.

(** A computation that returns or raises [KeyError]. *)
Inductive exc (A : Type) : Type :=
| Ret (a : A)
| KeyError (key : string).
Arguments Ret {A} a.
Arguments KeyError {A} key.

Definition bind {A B : Type} (m : exc A) (k : A -> exc B) : exc B :=
  match m with
  | Ret a => k a
  | KeyError key => KeyError key
  end.

Notation "x <- m ;; k" := (bind m (fun x => k))
  (at level 61, m at next level, right associativity).

(** [d[k]], which raises on a missing key. *)
Definition dict_item {V : Type} (k : string) (d : dict V) : exc V :=
  match dict_get k d with
  | Some v => Ret v
  | None => KeyError k
  end.

(* ================================================================== *)
(** ** [parse_package_data]: one record from one stanza *)

Definition dep_fields : list string :=
  ["Depends"; "Pre-Depends"; "Recommends"; "Suggests"; "Conflicts"; "Breaks"].

(** The two keys of an alias entry. *)
Definition alias_entry (name target : string) : value :=
  VDict [("source", VStr name); ("target", VStr target)].

(** The body of [for dep in pkg_data[field].split(",")], on the two
    accumulators [deps] and [aliases].  [parts[0]] and [name_version[0]] are
    [hd]: a split is never empty ([split_not_nil]); [name_version[1]] is read
    under its guard [len(name_version) > 1]. *)
Definition dep_step (acc : list value * list value) (dep : string)
  : list value * list value :=
  let '(deps, aliases) := acc in
  let dep := strip dep in
  if nonempty dep && negb (startswith "${" dep) then
    let parts := split "|" dep in
    let main_dep := strip (hd "" parts) in
    let name_version := split "(" main_dep in
    let name := strip (hd "" name_version) in
    let version :=
      if (1 <? List.length name_version)%nat
      then Some (strip_chars ")" (nth 1 name_version ""))
      else None in
    let item := [("name", VStr name)] in
    let item :=
      match version with
      | Some v => dict_update item [("version", VStr v)]
      | None => item
      end in
    let deps := deps ++ [VDict item] in
    let aliases :=
      if (1 <? List.length parts)%nat
      then fold_left
             (fun al alias => al ++ [alias_entry name (strip alias)])
             (skipn 1 parts) aliases
      else aliases in
    (deps, aliases)
  else (deps, aliases).

(** The inner loop over one raw field value. *)
Definition decompose (raw : string) : list value * list value :=
  fold_left dep_step (split "," raw) ([], []).

(** The body of [for field in dep_fields]. *)
Definition field_step (pkg_data : dict string) (dependencies : dict value)
  (field : string) : dict value :=
  match dict_get field pkg_data with
  | Some raw =>
      let '(deps, aliases) := decompose raw in
      let dependencies := dict_set (lower field) (VList deps) dependencies in
      match aliases with
      | [] => dependencies
      | _ :: _ =>
          dict_set (lower field ++ "_aliases")%string (VList aliases)
            dependencies
      end
  | None => dependencies
  end.

(** The [dependencies] dict after the loop over [dep_fields]. *)
Definition dependencies_of (pkg_data : dict string) : dict value :=
  fold_left (field_step pkg_data) dep_fields [].

(** The two conditional expressions on [maintainer_info]; under the guard
    ["<" in maintainer_info] the split has its second piece ([split_with]). *)
Definition maintainer_name (maintainer_info : string) : string :=
  if contains "<" maintainer_info
  then strip (hd "" (split "<" maintainer_info))
  else maintainer_info.

Definition maintainer_email (maintainer_info : string) : string :=
  if contains "<" maintainer_info
  then strip_chars ">" (nth 1 (split "<" maintainer_info) "")
  else "".

(** The record; [pkg_data["Package"]] is the one lookup that can raise. *)
Definition parse_package_data (pkg_data : dict string) : exc value :=
  let dependencies := dependencies_of pkg_data in
  let maintainer_info := dict_get_default "Maintainer" "" pkg_data in
  name <- dict_item "Package" pkg_data ;;
  Ret (VDict
         [("name", VStr name);
          ("version", VStr (dict_get_default "Version" "" pkg_data));
          ("dependencies", VDict dependencies);
          ("description",
            VStr (hd "" (split nl_char
                           (dict_get_default "Description" "" pkg_data))));
          ("maintainer",
            VDict [("name", VStr (maintainer_name maintainer_info));
                   ("email", VStr (maintainer_email maintainer_info))])]).

(* ================================================================== *)
(** ** [parse_packages_file]: the records of one index file *)

(** [if head and len(packages) >= head] *)
Definition cap_reached (head : option Z) (packages : dict value) : bool :=
  match head with
  | None => false
  | Some h => negb (h =? 0)%Z && (h <=? Z.of_nat (List.length packages))%Z
  end.

(** How one pass through the loop body ends: on to the next line, or [break]. *)
Inductive flow : Type :=
| Continue (packages : dict value) (current_package : dict string)
| Break (packages : dict value).

(** The body of [for line in f], on the two local dicts.  The unpacking
    [key, value = line.split(":", 1)] is under the guard [":" in line], where
    the split has two pieces ([split1_with]). *)
Definition read_line (head : option Z) (packages : dict value)
  (current_package : dict string) (raw : string) : exc flow :=
  let line := strip raw in
  if negb (nonempty line) then
    if dict_nonempty current_package && dict_mem "Package" current_package
    then
      pkg_name <- dict_item "Package" current_package ;;
      record <- parse_package_data current_package ;;
      let packages := dict_set pkg_name record packages in
      if cap_reached head packages then Ret (Break packages)
      else Ret (Continue packages [])
    else Ret (Continue packages [])
  else if contains ":" line && negb (startswith " " line) then
    match split1 ":" line with
    | key :: value :: _ =>
        Ret (Continue packages
               (dict_set (strip key) (strip value) current_package))
    | _ => Ret (Continue packages current_package)
    end
  else if startswith " " line && dict_nonempty current_package then
    let last_key := last (dict_keys current_package) "" in
    Ret (Continue packages
           (dict_set last_key
              (dict_get_default last_key "" current_package
                 ++ " " ++ strip line)%string
              current_package))
  else Ret (Continue packages current_package).

(** The [for line in f] loop; [consumed] counts the lines taken from the
    file.  The result is [packages] when the loop ends, by exhaustion or by
    [break], with the number of lines that were read.  Nothing follows the
    loop but [return packages]. *)
Fixpoint read_lines (head : option Z) (packages : dict value)
  (current_package : dict string) (consumed : nat) (f : list string)
  : exc (dict value * nat) :=
  match f with
  | [] => Ret (packages, consumed)
  | raw :: rest =>
      fl <- read_line head packages current_package raw ;;
      match fl with
      | Continue packages current_package =>
          read_lines head packages current_package (S consumed) rest
      | Break packages => Ret (packages, S consumed)
      end
  end.

(** [packages_file] is the sequence of lines that iterating over the opened
    file yields. *)
Definition parse_packages_file (packages_file : list string)
  (head : option Z) : exc (dict value * nat) :=
  read_lines head [] [] 0 packages_file.

(** The records alone, as the caller sees them. *)
Definition packages_of (packages_file : list string) (head : option Z)
  : exc (dict value) :=
  r <- parse_packages_file packages_file head ;; Ret (fst r).

(* ================================================================== *)
(** ** The [parse] command *)

(** [sum(len(parse_packages_file(f, head)) for f in packages_files)]: the
    first pass, which sizes the progress bar. *)
Fixpoint count_all (head : option Z) (packages_files : list (list string))
  : exc nat :=
  match packages_files with
  | [] => Ret 0
  | f :: rest =>
      packages_data <- packages_of f head ;;
      n <- count_all head rest ;;
      Ret (List.length packages_data + n)
  end.

(** The loop over the files; the inner loop appends every record of the file,
    in the order of its dict. *)
Fixpoint collect (head : option Z) (packages_files : list (list string))
  (all_packages : list value) : exc (list value) :=
  match packages_files with
  | [] => Ret all_packages
  | f :: rest =>
      packages_data <- packages_of f head ;;
      collect head rest
        (fold_left (fun acc kv => acc ++ [snd kv]) packages_data all_packages)
  end.

(** [parse]: [None] when there is no cache file (nothing is dumped),
    otherwise the list that is dumped to [package.meta.json.gz]. *)
Definition parse (packages_files : list (list string)) (head : option Z)
  : exc (option (list value)) :=
  match packages_files with
  | [] => Ret None
  | _ :: _ =>
      _ <- count_all head packages_files ;;
      all_packages <- collect head packages_files [] ;;
      Ret (Some all_packages)
  end.

(** A file given by its lines, each ended by a newline. *)
Definition text (lines : list string) : list string :=
  map (fun l => (l ++ nl)%string) lines.

(* ================================================================== *)
(** ** [download_packages_file] and the [download] command *)

(** The address of the index of one component. *)
Definition packages_url (mirror suite component arch : string) : string :=
  (mirror ++ "/dists/" ++ suite ++ "/" ++ component ++ "/binary-" ++ arch
   ++ "/Packages.gz")%string.

(** The name of its file in the cache directory. *)
Definition cache_filename (suite component arch : string) : string :=
  (suite ++ "_" ++ component ++ "_" ++ arch ++ "_Packages.gz")%string.

(** What a request does: [requests.get] or [raise_for_status] raises, or the
    body comes in chunks and the stream ends or raises after them. *)
Inductive response : Type :=
| RequestFails
| Streams (chunks : list string) (completes : bool).

(** The world of [download_packages_file]: the answer of the network to each
    address, and whether a file of the cache directory can be opened for
    writing. *)
Record world : Type := {
  net : string -> response;
  writable : string -> bool
}.

(** The bytes written by [for chunk in ...: if chunk: f.write(chunk)]. *)
Definition written (chunks : list string) : string :=
  fold_left (fun content chunk =>
               if nonempty chunk then (content ++ chunk)%string else content)
    chunks "".

(** [download_packages_file], on the cache directory as a dict from file name
    to content.  The result is the returned path ([None] for Python's [None])
    and the cache directory afterwards.  Every exception is caught: a failed
    request or a file that cannot be opened leaves the directory as it is; a
    stream that breaks leaves the file with what was written. *)
Definition download_packages_file (w : world) (cache_dir : dict string)
  (mirror suite component arch : string) : option string * dict string :=
  let url := packages_url mirror suite component arch in
  let filename := cache_filename suite component arch in
  if dict_mem filename cache_dir then (Some filename, cache_dir)
  else
    match net w url with
    | RequestFails => (None, cache_dir)
    | Streams chunks completes =>
        if writable w filename then
          (if completes then Some filename else None,
           dict_set filename (written chunks) cache_dir)
        else (None, cache_dir)
    end.

(** [components_list = [c.strip() for c in components.split(",")]] *)
Definition components_list (components : string) : list string :=
  map strip (split "," components).

(** The [download] command: one call per component, the result dropped. *)
Definition download (w : world) (cache_dir : dict string)
  (suite components arch mirror : string) : dict string :=
  fold_left
    (fun cache component =>
       snd (download_packages_file w cache mirror suite component arch))
    (components_list components) cache_dir.

(** One call of the loop of [download]. *)
Definition download_step (w : world) (mirror suite arch : string)
  (cache : dict string) (component : string) : dict string :=
  snd (download_packages_file w cache mirror suite component arch).

(** Nothing more will be written for this component: its file is there, or
    the request fails, or the file cannot be opened. *)
Definition download_settled (w : world) (mirror suite arch : string)
  (component : string) (cache : dict string) : Prop :=
  dict_mem (cache_filename suite component arch) cache = true \/
  match net w (packages_url mirror suite component arch) with
  | RequestFails => True
  | Streams _ _ => writable w (cache_filename suite component arch) = false
  end.

(* ================================================================== *)
(** ** The [scrape] command of [run/scrape_bugs.py], up to the tracker *)

(** What a subscript with a string can raise. *)
Inductive lookup_error : Type :=
| NoSuchKey (key : string)
| NotADict.

(** [package["name"]] *)
Definition package_name (package : value) : lookup_error + value :=
  match package with
  | VDict d =>
      match dict_get "name" d with
      | Some v => inr v
      | None => inl (NoSuchKey "name")
      end
  | _ => inl NotADict
  end.

(** [l[:stop]] *)
Definition slice_to {A : Type} (l : list A) (stop : Z) : list A :=
  if (0 <=? stop)%Z then firstn (Z.to_nat stop) l
  else firstn (List.length l - Z.to_nat (- stop)) l.

(** [if head: all_packages = all_packages[:head]] *)
Definition scrape_selection (all_packages : list value) (head : option Z)
  : list value :=
  match head with
  | None => all_packages
  | Some h => if (h =? 0)%Z then all_packages else slice_to all_packages h
  end.

(** The loop of [scrape], as far as the packages decide it: the names handed
    to [debianbts.get_bugs], in order, when every [package["name"]] is there;
    the first one that is not ends the command before anything is dumped. *)
Fixpoint queried_names (packages : list value) : lookup_error + list value :=
  match packages with
  | [] => inr []
  | package :: rest =>
      match package_name package with
      | inl e => inl e
      | inr name =>
          match queried_names rest with
          | inl e => inl e
          | inr names => inr (name :: names)
          end
      end
  end.

Definition scrape (all_packages : list value) (head : option Z)
  : lookup_error + list value :=
  queried_names (scrape_selection all_packages head).

(* ================================================================== *)
(** ** [parse_package_data] with every subscript checked *)

(** The exceptions that the subscripts of the builder can raise. *)
Inductive py_error : Type :=
| ErrKey (key : string)
| ErrIndex.

Definition bind_checked {A B : Type} (m : py_error + A)
  (k : A -> py_error + B) : py_error + B :=
  match m with
  | inl e => inl e
  | inr a => k a
  end.

Notation "x <-? m ;; k" := (bind_checked m (fun x => k))
  (at level 61, m at next level, right associativity).

(** [l[i]] for an index from the left: [IndexError] beyond the end. *)
Definition item_at {A : Type} (l : list A) (i : nat) : py_error + A :=
  match nth_error l i with
  | Some a => inr a
  | None => inl ErrIndex
  end.

(** [d[k]]: [KeyError] on a missing key. *)
Definition key_at {V : Type} (k : string) (d : dict V) : py_error + V :=
  match dict_get k d with
  | Some v => inr v
  | None => inl (ErrKey k)
  end.

(** The body of the clause loop, each of [parts[0]], [name_version[0]] and
    [name_version[1]] being a subscript that can raise. *)
Definition dep_step_checked (acc : list value * list value) (dep : string)
  : py_error + (list value * list value) :=
  let '(deps, aliases) := acc in
  let dep := strip dep in
  if nonempty dep && negb (startswith "${" dep) then
    let parts := split "|" dep in
    parts_0 <-? item_at parts 0 ;;
    let main_dep := strip parts_0 in
    let name_version := split "(" main_dep in
    name_version_0 <-? item_at name_version 0 ;;
    let name := strip name_version_0 in
    version <-?
      (if (1 <? List.length name_version)%nat
       then name_version_1 <-? item_at name_version 1 ;;
            inr (Some (strip_chars ")" name_version_1))
       else inr None) ;;
    let item := [("name", VStr name)] in
    let item :=
      match version with
      | Some v => dict_update item [("version", VStr v)]
      | None => item
      end in
    let deps := deps ++ [VDict item] in
    let aliases :=
      if (1 <? List.length parts)%nat
      then fold_left
             (fun al alias => al ++ [alias_entry name (strip alias)])
             (skipn 1 parts) aliases
      else aliases in
    inr (deps, aliases)
  else inr (deps, aliases).

(** The clause loop, which an exception leaves at once. *)
Fixpoint clauses_checked (clauses : list string)
  (acc : list value * list value) : py_error + (list value * list value) :=
  match clauses with
  | [] => inr acc
  | dep :: rest =>
      acc' <-? dep_step_checked acc dep ;; clauses_checked rest acc'
  end.

(** The body of [for field in dep_fields], with [pkg_data[field]] a
    subscript under its guard [field in pkg_data]. *)
Definition field_step_checked (pkg_data : dict string)
  (dependencies : dict value) (field : string) : py_error + dict value :=
  if dict_mem field pkg_data then
    raw <-? key_at field pkg_data ;;
    da <-? clauses_checked (split "," raw) ([], []) ;;
    let '(deps, aliases) := da in
    let dependencies := dict_set (lower field) (VList deps) dependencies in
    match aliases with
    | [] => inr dependencies
    | _ :: _ =>
        inr (dict_set (lower field ++ "_aliases")%string (VList aliases)
               dependencies)
    end
  else inr dependencies.

Fixpoint fields_checked (pkg_data : dict string) (fields : list string)
  (dependencies : dict value) : py_error + dict value :=
  match fields with
  | [] => inr dependencies
  | field :: rest =>
      dependencies' <-? field_step_checked pkg_data dependencies field ;;
      fields_checked pkg_data rest dependencies'
  end.

Definition maintainer_name_checked (maintainer_info : string)
  : py_error + string :=
  if contains "<" maintainer_info
  then piece <-? item_at (split "<" maintainer_info) 0 ;; inr (strip piece)
  else inr maintainer_info.

Definition maintainer_email_checked (maintainer_info : string)
  : py_error + string :=
  if contains "<" maintainer_info
  then piece <-? item_at (split "<" maintainer_info) 1 ;;
       inr (strip_chars ">" piece)
  else inr "".

(** [parse_package_data], statement by statement, where every [d[k]] and
    every [l[i]] raises when the key or the index is not there. *)
Definition parse_package_data_checked (pkg_data : dict string)
  : py_error + value :=
  dependencies <-? fields_checked pkg_data dep_fields [] ;;
  let maintainer_info := dict_get_default "Maintainer" "" pkg_data in
  maintainer_name <-? maintainer_name_checked maintainer_info ;;
  maintainer_email <-? maintainer_email_checked maintainer_info ;;
  name <-? key_at "Package" pkg_data ;;
  description <-?
    item_at (split nl_char (dict_get_default "Description" "" pkg_data)) 0 ;;
  inr (VDict
         [("name", VStr name);
          ("version", VStr (dict_get_default "Version" "" pkg_data));
          ("dependencies", VDict dependencies);
          ("description", VStr description);
          ("maintainer",
            VDict [("name", VStr maintainer_name);
                   ("email", VStr maintainer_email)])]).

(* ================================================================== *)
(** ** Definitions for the statements *)

(** A clause that the filter [if dep and not dep.startswith("${")] lets
    through. *)
Definition accepted (clause : string) : bool :=
  nonempty (strip clause) && negb (startswith "${" (strip clause)).

(** The item built from the first alternative. *)
Definition primary_item (main_dep : string) : dict value :=
  match split "(" main_dep with
  | name :: version :: _ =>
      [("name", VStr (strip name));
       ("version", VStr (strip_chars ")" version))]
  | name :: [] => [("name", VStr (strip name))]
  | [] => [("name", VStr "")]
  end.

(** What [parse] reads from each file, in order. *)
Definition files_read (head : option Z) (packages_files : list (list string))
  (per_file : list (dict value)) : Prop :=
  Forall2 (fun f pk => packages_of f head = Ret pk) packages_files per_file.

(** The record of a stanza that holds a name and, maybe, a version. *)
Definition bare_record (name version : string) : value :=
  VDict
    [("name", VStr name); ("version", VStr version);
     ("dependencies", VDict []); ("description", VStr "");
     ("maintainer", VDict [("name", VStr ""); ("email", VStr "")])].

(** A file with the one package [foo], in the given version. *)
Definition foo_file (version : string) : list string :=
  text ["Package: foo"; ("Version: " ++ version)%string; ""].

(** A file with ten stanzas, each closed by a blank line. *)
Definition ten_stanzas (pre : string) : list string :=
  text (flat_map (fun n => [("Package: " ++ pre ++ n)%string; ""])
          ["0"; "1"; "2"; "3"; "4"; "5"; "6"; "7"; "8"; "9"]).

(* ================================================================== *)
(** ** What the specification's words denote *)

Module Spec.

(** The text up to the first [close]. *)
Fixpoint upto (close : ascii) (s : string) : option string :=
  match s with
  | EmptyString => None
  | String c r =>
      if Ascii.eqb c close then Some EmptyString
      else option_map (String c) (upto close r)
  end.

(** "The text inside the first [<...>] pair", "the parenthesised constraint
    with parentheses stripped": what stands between the first [open] and the
    first [close] after it. *)
Fixpoint inside_first_pair (open close : ascii) (s : string) : option string :=
  match s with
  | EmptyString => None
  | String c r =>
      if Ascii.eqb c open then upto close r else inside_first_pair open close r
  end.

(** The serialized form the specification gives to one relation kind. *)
Definition dependency_field (items aliases : list value) : value :=
  VDict [("items", VList items); ("aliases", VList aliases)].

End Spec.

(* ================================================================== *)
(** ** The clause loop in closed form *)

(** The item that an accepted clause appends. *)
Definition clause_item (clause : string) : value :=
  VDict (primary_item (strip (hd "" (split "|" (strip clause))))).

(** The name under which the aliases of a clause are filed. *)
Definition clause_name (clause : string) : string :=
  strip (hd "" (split "(" (strip (hd "" (split "|" (strip clause)))))).

(** The aliases that an accepted clause appends. *)
Definition clause_aliases (clause : string) : list value :=
  map (fun a => alias_entry (clause_name clause) (strip a))
    (tl (split "|" (strip clause))).

(** The two keys a relation field can set. *)
Definition field_keys (field : string) : list string :=
  [lower field; (lower field ++ "_aliases")%string].

(** What a relation field adds to the [dependencies] dict. *)
Definition field_entries (pkg_data : dict string) (field : string)
  : dict value :=
  match dict_get field pkg_data with
  | None => []
  | Some raw =>
      (lower field, VList (fst (decompose raw))) ::
      match snd (decompose raw) with
      | [] => []
      | al => [((lower field ++ "_aliases")%string, VList al)]
      end
  end.

(** The key that a line sets, when it sets one: the line is not blank and
    has a colon. *)
Definition line_key (raw : string) : option string :=
  let line := strip raw in
  if nonempty line && contains ":" line
  then Some (strip (hd "" (split1 ":" line)))
  else None.

(** What is stored is the record of a stanza, under the name of that stanza. *)
Definition stored_under_name (pk : dict value) : Prop :=
  forall k r,
    In (k, r) pk ->
    exists stanza,
      dict_get "Package" stanza = Some k /\ parse_package_data stanza = Ret r.

(** A stanza whose keys and values have no white space at either end. *)
Definition trimmed (stanza : dict string) : Prop :=
  Forall (fun kv => strip (fst kv) = fst kv /\ strip (snd kv) = snd kv) stanza.

(** A dict of records whose keys have no white space at either end. *)
Definition names_trimmed (pk : dict value) : Prop :=
  Forall (fun kr => strip (fst kr) = fst kr) pk.

(** A value that is a dict with a string under ["name"]. *)
Definition named (r : value) : Prop :=
  exists k, value_get "name" r = Some (VStr k).

(** A line made of white space only. *)
Fixpoint all_space (s : string) : bool :=
  match s with
  | EmptyString => true
  | String c r => isspace c && all_space r
  end.

(* ================================================================== *)
(** ** Facts about the string operations *)

Section StringFacts.

Variable p : ascii -> bool.

Lemma lstrip_with_head (s : string) :
  lstrip_with p s = "" \/
  exists c r, lstrip_with p s = String c r /\ p c = false.
Proof.
  induction s as [|c r IH]; simpl; [now left|].
  destruct (p c) eqn:E; [exact IH|].
  right. now exists c, r.
Qed.

Lemma rstrip_with_head (c : ascii) (r : string) :
  rstrip_with p (String c r) = "" \/
  exists r', rstrip_with p (String c r) = String c r'.
Proof.
  simpl. destruct (rstrip_with p r) as [|c' r'].
  - destruct (p c); [now left|right; now eexists].
  - right; now eexists.
Qed.

Lemma strip_with_head (s : string) :
  strip_with p s = "" \/
  exists c r, strip_with p s = String c r /\ p c = false.
Proof.
  unfold strip_with.
  destruct (lstrip_with_head s) as [->|(c & r & -> & Hc)]; [now left|].
  destruct (rstrip_with_head c r) as [->|(r' & ->)]; [now left|].
  right. now exists c, r'.
Qed.

Lemma rstrip_with_snoc (s : string) (x : ascii) :
  p x = true -> rstrip_with p (s ++ String x "") = rstrip_with p s.
Proof.
  intros Hx. induction s as [|c r IH]; simpl.
  - now rewrite Hx.
  - now rewrite IH.
Qed.

Lemma lstrip_with_all (s : string) (x : ascii) :
  p x = true -> lstrip_with p s = "" ->
  lstrip_with p (s ++ String x "") = "".
Proof.
  intros Hx. induction s as [|c r IH]; simpl.
  - now rewrite Hx.
  - destruct (p c); [exact IH|discriminate].
Qed.

Lemma lstrip_with_app (s t : string) :
  lstrip_with p s <> "" ->
  lstrip_with p (s ++ t) = (lstrip_with p s ++ t)%string.
Proof.
  induction s as [|c r IH]; simpl; [congruence|].
  destruct (p c); [exact IH|reflexivity].
Qed.

(** Stripping ignores one more strippable character at the end. *)
Lemma strip_with_snoc (s : string) (x : ascii) :
  p x = true -> strip_with p (s ++ String x "") = strip_with p s.
Proof.
  intros Hx. unfold strip_with.
  destruct (lstrip_with p s) eqn:E.
  - now rewrite (lstrip_with_all s x Hx E).
  - rewrite lstrip_with_app by (rewrite E; discriminate).
    rewrite E. now apply rstrip_with_snoc.
Qed.

Lemma rstrip_with_idem (s : string) :
  rstrip_with p (rstrip_with p s) = rstrip_with p s.
Proof.
  induction s as [|c r IH]; simpl; [reflexivity|].
  destruct (rstrip_with p r) as [|c' r'] eqn:E.
  - destruct (p c) eqn:Ec; simpl; [reflexivity|now rewrite Ec].
  - change (rstrip_with p (String c (String c' r')))
      with (match rstrip_with p (String c' r') with
            | EmptyString => if p c then EmptyString else String c EmptyString
            | r0 => String c r0
            end).
    now rewrite IH.
Qed.

(** Stripping twice is stripping once. *)
Lemma strip_with_idem (s : string) :
  strip_with p (strip_with p s) = strip_with p s.
Proof.
  destruct (strip_with_head s) as [E|(c & r & E & Hc)].
  - now rewrite E.
  - unfold strip_with at 1. rewrite E. cbn [lstrip_with]. rewrite Hc.
    rewrite <- E. unfold strip_with. apply rstrip_with_idem.
Qed.

End StringFacts.

(** A stripped line never starts with a space. *)
Lemma strip_not_startswith_space (s : string) :
  startswith " " (strip s) = false.
Proof.
  unfold strip, startswith.
  destruct (strip_with_head isspace s) as [->|(c & r & -> & Hc)];
    [reflexivity|].
  cbn [prefix].
  destruct (ascii_dec " " c) as [<-|Hne]; [discriminate Hc|reflexivity].
Qed.

Section SplitFacts.

Variable sep : ascii.

Lemma split_not_nil (s : string) : split sep s <> [].
Proof.
  induction s as [|c r IH]; simpl; [discriminate|].
  destruct (Ascii.eqb c sep); [discriminate|].
  destruct (split sep r); [contradiction|discriminate].
Qed.

(** Without the separator there is one piece, the string itself. *)
Lemma split_without (s : string) :
  contains sep s = false -> split sep s = [s].
Proof.
  induction s as [|c r IH]; simpl; [reflexivity|].
  intros H. apply orb_false_iff in H as [Hc Hr].
  rewrite Hc, (IH Hr). reflexivity.
Qed.

(** The first piece ends at the first separator. *)
Lemma split_app (a b : string) :
  contains sep a = false ->
  split sep (a ++ String sep b) = a :: split sep b.
Proof.
  induction a as [|c r IH]; simpl.
  - intros _. now rewrite Ascii.eqb_refl.
  - intros H. apply orb_false_iff in H as [Hc Hr].
    rewrite Hc, (IH Hr). reflexivity.
Qed.

(** With the separator there are at least two pieces. *)
Lemma split_with (s : string) :
  contains sep s = true ->
  exists a b rest, split sep s = a :: b :: rest.
Proof.
  induction s as [|c r IH]; simpl; [discriminate|].
  destruct (Ascii.eqb c sep) eqn:E.
  - intros _. destruct (split sep r) as [|h t] eqn:Er.
    + now apply split_not_nil in Er.
    + now exists "", h, t.
  - simpl. intros H. destruct (IH H) as (a & b & rest & ->).
    now exists (String c a), b, rest.
Qed.

(** Under the guard [sep in s], [s.split(sep, 1)] unpacks into two. *)
Lemma split1_with (s : string) :
  contains sep s = true -> exists k v, split1 sep s = [k; v].
Proof.
  induction s as [|c r IH]; simpl; [discriminate|].
  destruct (Ascii.eqb c sep) eqn:E.
  - intros _. now exists "", r.
  - simpl. intros H. destruct (IH H) as (k & v & ->).
    now exists (String c k), v.
Qed.

End SplitFacts.

(* ================================================================== *)
(** ** Facts about dicts *)

Section DictFacts.
Context {V : Type}.
Implicit Types (d : dict V) (k : string) (v : V).

Lemma dict_get_set_same k v d : dict_get k (dict_set k v d) = Some v.
Proof.
  induction d as [|[k' v'] r IH]; simpl.
  - now rewrite String.eqb_refl.
  - destruct (String.eqb k' k) eqn:E; simpl; rewrite E; auto.
Qed.

Lemma dict_get_set_other k k' v d :
  k <> k' -> dict_get k' (dict_set k v d) = dict_get k' d.
Proof.
  intros Hne. induction d as [|[k0 v0] r IH]; simpl.
  - destruct (String.eqb_spec k k'); [contradiction|reflexivity].
  - destruct (String.eqb_spec k0 k) as [->|Hk]; simpl.
    + destruct (String.eqb_spec k k'); [contradiction|reflexivity].
    + now rewrite IH.
Qed.

Lemma dict_mem_set k k' v d :
  dict_mem k' (dict_set k v d) = String.eqb k k' || dict_mem k' d.
Proof.
  unfold dict_mem. destruct (String.eqb_spec k k') as [->|Hne].
  - now rewrite dict_get_set_same.
  - now rewrite dict_get_set_other.
Qed.

Lemma dict_mem_keys k d : dict_mem k d = true <-> In k (dict_keys d).
Proof.
  unfold dict_mem. induction d as [|[k' v'] r IH]; simpl.
  - split; [discriminate|contradiction].
  - destruct (String.eqb_spec k' k) as [->|Hne].
    + split; auto.
    + rewrite IH. split; [auto|]. intros [H|H]; [contradiction|exact H].
Qed.

(** Assignment appends the key only when it is new. *)
Lemma dict_set_keys k v d :
  dict_keys (dict_set k v d) =
  if dict_mem k d then dict_keys d else dict_keys d ++ [k].
Proof.
  unfold dict_mem. induction d as [|[k' v'] r IH]; simpl; [reflexivity|].
  destruct (String.eqb_spec k' k) as [->|Hne]; simpl; [reflexivity|].
  rewrite IH. now destruct (dict_get k r).
Qed.

(** The keys of a dict stay distinct. *)
Lemma dict_set_NoDup k v d :
  NoDup (dict_keys d) -> NoDup (dict_keys (dict_set k v d)).
Proof.
  intros Hd. rewrite dict_set_keys.
  destruct (dict_mem k d) eqn:E; [exact Hd|].
  apply NoDup_app; [exact Hd|repeat constructor; intros []|].
  intros x Hx [<-|[]]. apply dict_mem_keys in Hx. congruence.
Qed.

Lemma dict_set_length k v d :
  List.length (dict_set k v d) =
  if dict_mem k d then List.length d else S (List.length d).
Proof.
  rewrite <- !(length_map fst). fold (dict_keys (dict_set k v d)).
  rewrite dict_set_keys. fold (dict_keys d).
  destruct (dict_mem k d); [reflexivity|].
  rewrite length_app. simpl. lia.
Qed.

End DictFacts.


(* ================================================================== *)
(** ** Facts about loops that append *)

Lemma fold_left_snoc {A B : Type} (g : A -> B) (l : list A) (acc : list B) :
  fold_left (fun al x => al ++ [g x]) l acc = acc ++ map g l.
Proof.
  revert acc. induction l as [|x l IH]; intros acc; simpl.
  - now rewrite app_nil_r.
  - rewrite IH, <- app_assoc. reflexivity.
Qed.

Lemma fold_left_pointwise {A B : Type} (f g : A -> B -> A) (l : list B) :
  (forall a x, f a x = g a x) ->
  forall a, fold_left f l a = fold_left g l a.
Proof.
  intros H. induction l as [|x l IH]; intros a; simpl; [reflexivity|].
  now rewrite H, IH.
Qed.

(* ================================================================== *)
(** ** The decomposition of one relation field *)

(** What one pass of the clause loop appends. *)
Lemma dep_step_accepted (deps aliases : list value) (clause : string) :
  accepted clause = true ->
  let parts := split "|" (strip clause) in
  let main_dep := strip (hd "" parts) in
  let name := strip (hd "" (split "(" main_dep)) in
  dep_step (deps, aliases) clause =
  (deps ++ [VDict (primary_item main_dep)],
   aliases ++ map (fun a => alias_entry name (strip a)) (tl parts)).
Proof.
  intros Hacc. unfold accepted in Hacc. cbv zeta.
  unfold dep_step. rewrite Hacc. f_equal.
  - f_equal. f_equal. f_equal. unfold primary_item.
    destruct (split "(" (strip (hd "" (split "|" (strip clause)))))
      as [|n [|v rest]]; reflexivity.
  - destruct (split "|" (strip clause)) as [|a [|b rest]] eqn:E.
    + now apply split_not_nil in E.
    + simpl. now rewrite app_nil_r.
    + cbn [List.length Nat.ltb Nat.leb skipn tl].
      apply fold_left_snoc.
Qed.

Lemma dep_step_rejected (acc : list value * list value) (clause : string) :
  accepted clause = false -> dep_step acc clause = acc.
Proof.
  intros Hrej. unfold accepted in Hrej. destruct acc as [deps aliases].
  unfold dep_step. now rewrite Hrej.
Qed.

(** A field whose clauses are all filtered out decomposes to nothing. *)
Lemma decompose_all_rejected (raw : string) :
  Forall (fun c => accepted c = false) (split "," raw) ->
  decompose raw = ([], []).
Proof.
  unfold decompose. generalize (@nil value, @nil value).
  induction (split "," raw) as [|c l IH]; intros acc H; simpl.
  - reflexivity.
  - inversion H; subst. rewrite dep_step_rejected by assumption. now apply IH.
Qed.

Lemma contains_app (c : ascii) (a b : string) :
  contains c (a ++ b) = contains c a || contains c b.
Proof.
  induction a as [|x a IH]; simpl; [reflexivity|].
  now rewrite IH, orb_assoc.
Qed.

(** The name is always there: the trimmed text before the first ["("]. *)
Lemma primary_item_name (main_dep : string) :
  dict_get "name" (primary_item main_dep) =
  Some (VStr (strip (hd "" (split "(" main_dep)))).
Proof.
  unfold primary_item.
  destruct (split "(" main_dep) as [|n [|v rest]]; reflexivity.
Qed.

(** Without ["("] the item holds a name and nothing else. *)
Lemma primary_item_plain (main_dep : string) :
  contains "(" main_dep = false ->
  primary_item main_dep = [("name", VStr (strip main_dep))].
Proof.
  intros H. unfold primary_item. now rewrite split_without.
Qed.

(** With ["("] the item holds a version, whatever follows the parenthesis. *)
Lemma primary_item_versioned (main_dep : string) :
  contains "(" main_dep = true ->
  exists name version,
    primary_item main_dep = [("name", VStr name); ("version", VStr version)].
Proof.
  intros H. unfold primary_item.
  destruct (split_with "(" main_dep H) as (a & b & rest & ->).
  now eexists _, _.
Qed.

(** [name (constraint)]: the constraint comes out without its parentheses. *)
Lemma primary_item_constraint (nm c : string) :
  contains "(" nm = false -> contains "(" c = false ->
  strip_chars ")" c = c ->
  primary_item (nm ++ "(" ++ c ++ ")") =
  [("name", VStr (strip nm)); ("version", VStr c)].
Proof.
  intros Hnm Hc Hstrip. unfold primary_item.
  change (nm ++ "(" ++ c ++ ")")%string
    with (nm ++ String "(" (c ++ ")"))%string.
  rewrite split_app by assumption.
  rewrite split_without by (rewrite contains_app, Hc; reflexivity).
  unfold strip_chars in *. rewrite strip_with_snoc by reflexivity.
  now rewrite Hstrip.
Qed.

(* ================================================================== *)
(** ** The [dependencies] dict *)

Lemma length_append (a b : string) :
  String.length (a ++ b) = String.length a + String.length b.
Proof. induction a as [|c a IH]; simpl; [reflexivity|now rewrite IH]. Qed.

Lemma lower_neq_aliases (s : string) : s <> (s ++ "_aliases")%string.
Proof.
  intros E. apply (f_equal String.length) in E.
  rewrite length_append in E. simpl in E. lia.
Qed.

(** A field leaves every key but its own two untouched. *)
Lemma field_step_get_other (s : dict string) (d : dict value)
  (f k : string) :
  k <> lower f -> k <> (lower f ++ "_aliases")%string ->
  dict_get k (field_step s d f) = dict_get k d.
Proof.
  intros H1 H2. unfold field_step.
  destruct (dict_get f s) as [raw|]; [|reflexivity].
  destruct (decompose raw) as [deps [|a al]].
  - now rewrite dict_get_set_other by congruence.
  - now rewrite !dict_get_set_other by congruence.
Qed.

(** The items key of a field: set exactly when the field is there. *)
Lemma field_step_get_items (s : dict string) (d : dict value) (f : string) :
  dict_get (lower f) (field_step s d f) =
  match dict_get f s with
  | Some raw => Some (VList (fst (decompose raw)))
  | None => dict_get (lower f) d
  end.
Proof.
  unfold field_step. destruct (dict_get f s) as [raw|]; [|reflexivity].
  destruct (decompose raw) as [deps [|a al]]; simpl.
  - apply dict_get_set_same.
  - rewrite dict_get_set_other
      by (intros E; symmetry in E; now apply lower_neq_aliases in E).
    apply dict_get_set_same.
Qed.

(** The aliases key of a field: set only for a non-empty alias list. *)
Lemma field_step_get_aliases (s : dict string) (d : dict value) (f : string) :
  dict_get (lower f ++ "_aliases") (field_step s d f) =
  match dict_get f s with
  | Some raw =>
      match snd (decompose raw) with
      | [] => dict_get (lower f ++ "_aliases") d
      | al => Some (VList al)
      end
  | None => dict_get (lower f ++ "_aliases") d
  end.
Proof.
  unfold field_step. destruct (dict_get f s) as [raw|]; [|reflexivity].
  destruct (decompose raw) as [deps [|a al]]; simpl.
  - apply dict_get_set_other, lower_neq_aliases.
  - apply dict_get_set_same.
Qed.

(** Peels the fields that do not own the looked-up key. *)
Ltac skip_other_fields :=
  repeat (rewrite field_step_get_other
            by (intros E; vm_compute in E; discriminate E)).

Lemma dependencies_of_items (s : dict string) (f : string) :
  In f dep_fields ->
  dict_get (lower f) (dependencies_of s) =
  match dict_get f s with
  | Some raw => Some (VList (fst (decompose raw)))
  | None => None
  end.
Proof.
  unfold dependencies_of, dep_fields. cbn [fold_left].
  intros H. repeat (destruct H as [<-|H]); try contradiction;
    skip_other_fields; rewrite field_step_get_items;
    destruct (dict_get _ s); try reflexivity;
    skip_other_fields; reflexivity.
Qed.

Lemma dependencies_of_aliases (s : dict string) (f : string) :
  In f dep_fields ->
  dict_get (lower f ++ "_aliases") (dependencies_of s) =
  match dict_get f s with
  | Some raw =>
      match snd (decompose raw) with
      | [] => None
      | al => Some (VList al)
      end
  | None => None
  end.
Proof.
  unfold dependencies_of, dep_fields. cbn [fold_left].
  intros H. repeat (destruct H as [<-|H]); try contradiction;
    skip_other_fields; rewrite field_step_get_aliases;
    destruct (dict_get _ s) as [raw|];
    try (destruct (snd (decompose raw)); [|reflexivity]);
    skip_other_fields; reflexivity.
Qed.

(* ================================================================== *)
(** ** The record *)

(** With a ["Package"] key the builder returns, and this is what. *)
Lemma parse_package_data_returns (s : dict string) (name : string) :
  dict_get "Package" s = Some name ->
  parse_package_data s =
  Ret (VDict
         [("name", VStr name);
          ("version", VStr (dict_get_default "Version" "" s));
          ("dependencies", VDict (dependencies_of s));
          ("description",
            VStr (hd "" (split nl_char (dict_get_default "Description" "" s))));
          ("maintainer",
            VDict
              [("name",
                 VStr (maintainer_name (dict_get_default "Maintainer" "" s)));
               ("email",
                 VStr (maintainer_email
                         (dict_get_default "Maintainer" "" s)))])]).
Proof.
  intros H. unfold parse_package_data, dict_item. now rewrite H.
Qed.

(** Without it the builder raises. *)
Lemma parse_package_data_raises (s : dict string) :
  dict_get "Package" s = None ->
  parse_package_data s = KeyError "Package".
Proof.
  intros H. unfold parse_package_data, dict_item. now rewrite H.
Qed.

Lemma dict_mem_get {V : Type} (k : string) (d : dict V) :
  dict_mem k d = true -> exists v, dict_get k d = Some v.
Proof.
  unfold dict_mem. destruct (dict_get k d) as [v|]; [now exists v|discriminate].
Qed.

(* ================================================================== *)
(** ** The reader: one line *)

(** A stripped line is never a continuation line: the guard
    [line.startswith(" ")] is tested after [line = line.strip()]. *)
Lemma read_line_no_colon (head : option Z) (pk : dict value)
  (cur : dict string) (raw : string) :
  nonempty (strip raw) = true -> contains ":" (strip raw) = false ->
  read_line head pk cur raw = Ret (Continue pk cur).
Proof.
  intros Hne Hc. unfold read_line.
  rewrite Hne, Hc, strip_not_startswith_space. reflexivity.
Qed.

(** A line with a colon sets a key, wherever the colon is. *)
Lemma read_line_field (head : option Z) (pk : dict value)
  (cur : dict string) (raw : string) :
  nonempty (strip raw) = true -> contains ":" (strip raw) = true ->
  exists key val,
    split1 ":" (strip raw) = [key; val] /\
    read_line head pk cur raw =
    Ret (Continue pk (dict_set (strip key) (strip val) cur)).
Proof.
  intros Hne Hc. unfold read_line.
  rewrite Hne, Hc, strip_not_startswith_space.
  destruct (split1_with ":" _ Hc) as (key & val & E).
  exists key, val. now rewrite E.
Qed.

(** A blank line after a stanza without ["Package"] drops the stanza. *)
Lemma read_line_blank_drop (head : option Z) (pk : dict value)
  (cur : dict string) (raw : string) :
  nonempty (strip raw) = false -> dict_get "Package" cur = None ->
  read_line head pk cur raw = Ret (Continue pk []).
Proof.
  intros Hne Hp. unfold read_line, dict_mem. rewrite Hne, Hp.
  now rewrite andb_false_r.
Qed.

(** A blank line after a stanza with ["Package"] stores its record under the
    package name, over whatever was stored there, and tests the cap. *)
Lemma read_line_blank_flush (head : option Z) (pk : dict value)
  (cur : dict string) (raw name : string) :
  nonempty (strip raw) = false -> dict_get "Package" cur = Some name ->
  exists record,
    parse_package_data cur = Ret record /\
    read_line head pk cur raw =
    Ret (if cap_reached head (dict_set name record pk)
         then Break (dict_set name record pk)
         else Continue (dict_set name record pk) []).
Proof.
  intros Hne Hp. eexists.
  split; [exact (parse_package_data_returns cur name Hp)|].
  unfold read_line, dict_mem, dict_item. rewrite Hne, Hp.
  destruct cur as [|kv cur]; [discriminate Hp|].
  cbn [negb dict_nonempty andb bind].
  rewrite (parse_package_data_returns _ name Hp). cbn [bind].
  now destruct (cap_reached head _).
Qed.

(** The two ways a line can end: [packages] untouched, or one assignment
    to it followed by the test of the cap. *)
Lemma read_line_cases (head : option Z) (pk : dict value)
  (cur : dict string) (raw : string) :
  (exists cur', read_line head pk cur raw = Ret (Continue pk cur')) \/
  (exists name record,
      dict_get "Package" cur = Some name /\
      parse_package_data cur = Ret record /\
      read_line head pk cur raw =
      Ret (if cap_reached head (dict_set name record pk)
           then Break (dict_set name record pk)
           else Continue (dict_set name record pk) [])).
Proof.
  destruct (nonempty (strip raw)) eqn:Hne.
  - left. destruct (contains ":" (strip raw)) eqn:Hc.
    + destruct (read_line_field head pk cur raw Hne Hc) as (k & v & _ & E).
      eexists. exact E.
    + eexists. now apply read_line_no_colon.
  - destruct (dict_get "Package" cur) as [name|] eqn:Hp.
    + right.
      destruct (read_line_blank_flush head pk cur raw name Hne Hp)
        as (record & Hr & E).
      now exists name, record.
    + left. eexists. now apply read_line_blank_drop.
Qed.

(* ================================================================== *)
(** ** The reader: one file *)

(** The loop never raises. *)
Lemma read_lines_returns (head : option Z) (f : list string) :
  forall pk cur c, exists pk' n, read_lines head pk cur c f = Ret (pk', n).
Proof.
  induction f as [|raw rest IH]; intros pk cur c; simpl.
  - now eexists _, _.
  - destruct (read_line_cases head pk cur raw)
      as [(cur' & ->)|(name & record & _ & _ & ->)]; cbn [bind].
    + apply IH.
    + destruct (cap_reached head _); [now eexists _, _|apply IH].
Qed.

(** The names of the records stay distinct. *)
Lemma read_lines_NoDup (head : option Z) (f : list string) :
  forall pk cur c pk' n,
    NoDup (dict_keys pk) ->
    read_lines head pk cur c f = Ret (pk', n) ->
    NoDup (dict_keys pk').
Proof.
  induction f as [|raw rest IH]; intros pk cur c pk' n Hnd; simpl.
  - intros [= <- <-]. exact Hnd.
  - destruct (read_line_cases head pk cur raw)
      as [(cur' & ->)|(name & record & _ & _ & ->)]; cbn [bind].
    + now apply IH.
    + pose proof (dict_set_NoDup name record pk Hnd) as Hnd'.
      destruct (cap_reached head _).
      * now intros [= <- <-].
      * now apply IH.
Qed.

(** At the end of the file the loop returns [packages] as it stands: the
    accumulated stanza [current_package] is not looked at. *)
Lemma read_lines_end (head : option Z) (pk : dict value) (cur : dict string)
  (c : nat) :
  read_lines head pk cur c [] = Ret (pk, c).
Proof. reflexivity. Qed.

(** Without a blank line nothing is ever stored. *)
Lemma read_lines_no_blank (head : option Z) (f : list string) :
  Forall (fun raw => nonempty (strip raw) = true) f ->
  forall pk cur c,
    read_lines head pk cur c f = Ret (pk, c + List.length f).
Proof.
  induction 1 as [|raw rest Hraw _ IH]; intros pk cur c; simpl.
  - now rewrite Nat.add_0_r.
  - destruct (contains ":" (strip raw)) eqn:Hc.
    + destruct (read_line_field head pk cur raw Hraw Hc) as (k & v & _ & ->).
      cbn [bind]. rewrite IH. f_equal. f_equal. lia.
    + rewrite read_line_no_colon by assumption.
      cbn [bind]. rewrite IH. f_equal. f_equal. lia.
Qed.

(* ================================================================== *)
(** ** The cap of one file *)

Section Cap.

Variable N : Z.
Hypothesis N_pos : (0 < N)%Z.

Lemma cap_reached_iff (pk : dict value) :
  cap_reached (Some N) pk = true <-> (N <= Z.of_nat (List.length pk))%Z.
Proof.
  unfold cap_reached. rewrite andb_true_iff, negb_true_iff.
  rewrite Z.eqb_neq, Z.leb_le. lia.
Qed.

(** While the loop runs there are fewer than [N] records; it breaks with
    exactly [N], on the line that stored the last of them, and whatever follows
    that line in the file is not read. *)
Lemma read_lines_capped (f : list string) :
  forall pk0 cur c0,
    (Z.of_nat (List.length pk0) < N)%Z ->
    exists pk n,
      read_lines (Some N) pk0 cur c0 f = Ret (pk, n) /\
      (Z.of_nat (List.length pk) <= N)%Z /\
      c0 <= n <= c0 + List.length f /\
      ((Z.of_nat (List.length pk) < N)%Z -> n = c0 + List.length f) /\
      (Z.of_nat (List.length pk) = N ->
       c0 < n /\
       (forall more,
           read_lines (Some N) pk0 cur c0 (firstn (n - c0) f ++ more) =
           Ret (pk, n)) /\
       (exists pk',
           read_lines (Some N) pk0 cur c0 (firstn (n - c0 - 1) f) =
           Ret (pk', n - 1) /\
           (Z.of_nat (List.length pk') < N)%Z)).
Proof.
  induction f as [|raw rest IH]; intros pk0 cur c0 Hlt.
  - exists pk0, c0. simpl. repeat split; try lia.
  - assert (Hstep : forall pk1 cur1,
               read_line (Some N) pk0 cur raw = Ret (Continue pk1 cur1) ->
               (Z.of_nat (List.length pk1) < N)%Z ->
               exists pk n,
                 read_lines (Some N) pk0 cur c0 (raw :: rest) = Ret (pk, n) /\
                 (Z.of_nat (List.length pk) <= N)%Z /\
                 c0 <= n <= c0 + List.length (raw :: rest) /\
                 ((Z.of_nat (List.length pk) < N)%Z ->
                  n = c0 + List.length (raw :: rest)) /\
                 (Z.of_nat (List.length pk) = N ->
                  c0 < n /\
                  (forall more,
                      read_lines (Some N) pk0 cur c0
                        (firstn (n - c0) (raw :: rest) ++ more) =
                      Ret (pk, n)) /\
                  (exists pk',
                      read_lines (Some N) pk0 cur c0
                        (firstn (n - c0 - 1) (raw :: rest)) =
                      Ret (pk', n - 1) /\
                      (Z.of_nat (List.length pk') < N)%Z))).
    { intros pk1 cur1 E Hlt1.
      destruct (IH pk1 cur1 (S c0) Hlt1)
        as (pk & n & Hrun & Hle & Hn & Hall & Hbrk).
      exists pk, n. cbn [read_lines]. rewrite E. cbn [bind].
      split; [exact Hrun|]. split; [exact Hle|].
      split; [simpl; lia|]. split; [intros H; rewrite (Hall H); simpl; lia|].
      intros Heq. destruct (Hbrk Heq) as (Hc & Hmore & pk' & Hpre & Hlt').
      split; [lia|]. split.
      - intros more. replace (n - c0) with (S (n - S c0)) by lia.
        cbn [firstn app read_lines]. rewrite E. cbn [bind]. apply Hmore.
      - exists pk'. split; [|exact Hlt'].
        replace (n - c0 - 1) with (S (n - S c0 - 1)) by lia.
        cbn [firstn read_lines]. rewrite E. cbn [bind]. exact Hpre. }
    destruct (read_line_cases (Some N) pk0 cur raw)
      as [(cur' & E)|(name & record & _ & _ & E)].
    + now apply (Hstep pk0 cur').
    + pose proof (dict_set_length name record pk0) as Hlen.
      destruct (cap_reached (Some N) (dict_set name record pk0)) eqn:Hcap.
      * apply cap_reached_iff in Hcap.
        assert (Heq : Z.of_nat (List.length (dict_set name record pk0)) = N)
          by (destruct (dict_mem name pk0); lia).
        exists (dict_set name record pk0), (S c0).
        cbn [read_lines]. rewrite E. cbn [bind].
        split; [reflexivity|]. split; [lia|]. split; [simpl; lia|].
        split; [lia|]. intros _. split; [lia|]. split.
        -- intros more. replace (S c0 - c0) with 1 by lia.
           cbn [firstn app read_lines]. rewrite E. reflexivity.
        -- exists pk0. replace (S c0 - c0 - 1) with 0 by lia.
           replace (S c0 - 1) with c0 by lia. now split.
      * apply (Hstep _ [] E).
        destruct (Z.ltb_spec (Z.of_nat (List.length (dict_set name record pk0)))
                    N) as [H|H]; [exact H|].
        apply cap_reached_iff in H. congruence.
Qed.

End Cap.

(* ================================================================== *)
(** ** The files of [parse] *)

Lemma packages_of_returns (head : option Z) (f : list string) :
  exists pk, packages_of f head = Ret pk /\ NoDup (dict_keys pk).
Proof.
  unfold packages_of, parse_packages_file.
  destruct (read_lines_returns head f [] [] 0) as (pk & n & E).
  exists pk. rewrite E. split; [reflexivity|].
  apply (read_lines_NoDup head f [] [] 0 pk n); [constructor|exact E].
Qed.

(** The second pass appends the records of every file, file after file. *)
Lemma collect_appends (head : option Z) (packages_files : list (list string)) :
  forall all_packages,
  exists per_file,
    files_read head packages_files per_file /\
    Forall (fun pk => NoDup (dict_keys pk)) per_file /\
    collect head packages_files all_packages =
    Ret (all_packages ++ flat_map dict_values per_file).
Proof.
  induction packages_files as [|f rest IH]; intros acc.
  - exists []. simpl. rewrite app_nil_r. repeat split; constructor.
  - destruct (packages_of_returns head f) as (pk & Hpk & Hnd).
    destruct (IH (acc ++ dict_values pk)) as (per & Hper & Hnds & Hcol).
    exists (pk :: per). split; [now constructor|]. split; [now constructor|].
    cbn [collect flat_map]. rewrite Hpk. cbn [bind].
    rewrite (fold_left_snoc snd). fold (dict_values pk).
    rewrite Hcol, app_assoc. reflexivity.
Qed.

(** The first pass, which only counts, never raises either. *)
Lemma count_all_returns (head : option Z)
  (packages_files : list (list string)) :
  exists total, count_all head packages_files = Ret total.
Proof.
  induction packages_files as [|f rest [total IH]]; simpl.
  - now exists 0.
  - destruct (packages_of_returns head f) as (pk & -> & _).
    cbn [bind]. rewrite IH. cbn [bind]. now eexists.
Qed.

(** [parse] dumps the records of the files, file after file. *)
Lemma parse_appends_per_file (head : option Z) (f : list string)
  (rest : list (list string)) :
  exists per_file,
    files_read head (f :: rest) per_file /\
    parse (f :: rest) head = Ret (Some (flat_map dict_values per_file)).
Proof.
  destruct (collect_appends head (f :: rest) []) as (per & Hper & _ & Hcol).
  exists per. split; [exact Hper|].
  unfold parse. destruct (count_all_returns head (f :: rest)) as [total ->].
  cbn [bind]. rewrite Hcol. reflexivity.
Qed.

Lemma files_read_functional (head : option Z)
  (packages_files : list (list string)) (p q : list (dict value)) :
  files_read head packages_files p -> files_read head packages_files q ->
  p = q.
Proof.
  intros Hp. revert q. induction Hp as [|f pk fs ps Hf _ IH]; intros q Hq.
  - now inversion Hq.
  - inversion Hq as [|f' pk' fs' qs Hf' Hq']; subst.
    f_equal; [congruence|now apply IH].
Qed.

(* ================================================================== *)
(** ** The record builder and the specification *)

(** C5, as the code has it: the lower-cased key of a relation kind is in the
    [dependencies] dict exactly when the stanza has the field, and it maps to
    the list of the items of the field itself; the aliases of the field are
    under a second key, the kind followed by [_aliases], exactly when there
    is at least one alias, and a field that is absent has neither key.  A
    field whose clauses are all filtered out is stored as the empty list
    under its key, with no [_aliases] key beside it. *)
Theorem relation_key_iff_field (s : dict string) (r : value) :
  parse_package_data s = Ret r ->
  exists deps,
    value_get "dependencies" r = Some (VDict deps) /\
    (forall f, In f dep_fields ->
               dict_mem (lower f) deps = true <-> dict_mem f s = true) /\
    (forall f,
        In f dep_fields -> dict_get f s = None ->
        dict_get (lower f) deps = None /\
        dict_get (lower f ++ "_aliases") deps = None) /\
    (forall f raw,
        In f dep_fields -> dict_get f s = Some raw ->
        dict_get (lower f) deps = Some (VList (fst (decompose raw))) /\
        dict_get (lower f ++ "_aliases") deps =
        match snd (decompose raw) with
        | [] => None
        | al => Some (VList al)
        end) /\
    (forall f raw,
        In f dep_fields -> dict_get f s = Some raw ->
        Forall (fun c => accepted c = false) (split "," raw) ->
        dict_get (lower f) deps = Some (VList []) /\
        dict_mem (lower f ++ "_aliases") deps = false).
Proof.
  intros Hr. destruct (dict_get "Package" s) as [name|] eqn:Hp.
  - rewrite (parse_package_data_returns s name Hp) in Hr.
    injection Hr as <-. exists (dependencies_of s).
    split; [reflexivity|]. split; [|split; [|split]].
    + intros f Hf. unfold dict_mem. rewrite (dependencies_of_items s f Hf).
      now destruct (dict_get f s).
    + intros f Hf Habs.
      rewrite (dependencies_of_items s f Hf).
      rewrite (dependencies_of_aliases s f Hf), Habs. now split.
    + intros f raw Hf Hraw.
      rewrite (dependencies_of_items s f Hf).
      rewrite (dependencies_of_aliases s f Hf), Hraw. now split.
    + intros f raw Hf Hraw Hrej. unfold dict_mem.
      rewrite (dependencies_of_items s f Hf).
      rewrite (dependencies_of_aliases s f Hf), Hraw.
      now rewrite (decompose_all_rejected raw Hrej).
  - rewrite (parse_package_data_raises s Hp) in Hr. discriminate Hr.
Qed.

Lemma relation_key_iff_field_witness :
  exists deps,
    value_get "dependencies"
      (VDict
         [("name", VStr "p"); ("version", VStr "");
          ("dependencies",
            VDict [("depends", VList [VDict [("name", VStr "a")]]);
                   ("suggests", VList [])]);
          ("description", VStr "");
          ("maintainer", VDict [("name", VStr ""); ("email", VStr "")])]) =
    Some (VDict deps) /\
    dict_get "depends" deps = Some (VList [VDict [("name", VStr "a")]]) /\
    dict_get "depends_aliases" deps = None /\
    dict_get "suggests" deps = Some (VList []) /\
    dict_get "suggests_aliases" deps = None /\
    dict_get "breaks" deps = None.
Proof.
  destruct (relation_key_iff_field
              [("Package", "p"); ("Depends", "a"); ("Suggests", "")]
              _ eq_refl) as (deps & Hdeps & _ & Habs & Hcont & _).
  exists deps. split; [exact Hdeps|].
  destruct (Hcont "Depends" "a") as [Hd Hda]; [simpl; auto|reflexivity|].
  destruct (Hcont "Suggests" "") as [Hs Hsa]; [simpl; tauto|reflexivity|].
  destruct (Habs "Breaks") as [Hb _]; [simpl; tauto|reflexivity|].
  repeat split; assumption.
Defined.

(** The two keys of a field with an alternative, and the one key of a field
    without. *)
Example items_and_aliases_keys :
  dependencies_of [("Package", "p"); ("Depends", "a | b, c")] =
  [("depends", VList [VDict [("name", VStr "a")]; VDict [("name", VStr "c")]]);
   ("depends_aliases", VList [alias_entry "a" "b"])] /\
  dependencies_of [("Package", "p"); ("Depends", "a, c")] =
  [("depends", VList [VDict [("name", VStr "a")]; VDict [("name", VStr "c")]])].
Proof. split; reflexivity. Qed.

(** C5, as the specification states it, fails: an empty [Suggests:] field is
    stored as the bare list [[]], not as an object with [items] and
    [aliases]. *)
Lemma empty_field_is_a_bare_list :
  exists r deps,
    parse_package_data [("Package", "p"); ("Suggests", "")] = Ret r /\
    value_get "dependencies" r = Some (VDict deps) /\
    dict_get "suggests" deps = Some (VList []) /\
    dict_get "suggests" deps <> Some (Spec.dependency_field [] []).
Proof.
  eexists _, _. split; [reflexivity|]. split; [reflexivity|].
  split; [reflexivity|]. discriminate.
Qed.

(** C6, as the code has it: an accepted clause appends one item, built from
    its first alternative, and one alias per further alternative, in order.
    The name is the trimmed text before the first parenthesis; without a
    parenthesis the item is the trimmed alternative alone; when the first
    alternative ends with its constraint, [name (constraint)], the version is
    the constraint without the parentheses. *)
Theorem clause_gives_primary_and_aliases (deps aliases : list value)
  (clause : string) :
  accepted clause = true ->
  let parts := split "|" (strip clause) in
  let main_dep := strip (hd "" parts) in
  exists item name,
    dep_step (deps, aliases) clause =
    (deps ++ [VDict item],
     aliases ++ map (fun a => alias_entry name (strip a)) (tl parts)) /\
    dict_get "name" item = Some (VStr name) /\
    name = strip (hd "" (split "(" main_dep)) /\
    (contains "(" main_dep = false -> item = [("name", VStr main_dep)]) /\
    (forall nm c,
        main_dep = (nm ++ "(" ++ c ++ ")")%string ->
        contains "(" nm = false -> contains "(" c = false ->
        strip_chars ")" c = c ->
        item = [("name", VStr (strip nm)); ("version", VStr c)]).
Proof.
  intros Hacc parts main_dep.
  exists (primary_item main_dep), (strip (hd "" (split "(" main_dep))).
  split; [exact (dep_step_accepted deps aliases clause Hacc)|].
  split; [apply primary_item_name|]. split; [reflexivity|]. split.
  - intros H. rewrite (primary_item_plain main_dep H).
    unfold main_dep, strip. now rewrite strip_with_idem.
  - intros nm c -> Hnm Hc Hs. now apply primary_item_constraint.
Qed.

Lemma clause_gives_primary_and_aliases_witness :
  dep_step ([], []) "a (>= 1.0) | b | c" =
  ([VDict [("name", VStr "a"); ("version", VStr ">= 1.0")]],
   [alias_entry "a" "b"; alias_entry "a" "c"]).
Proof.
  destruct (clause_gives_primary_and_aliases [] [] "a (>= 1.0) | b | c"
              eq_refl) as (item & name & Hstep & _ & Hname & _ & Hver).
  rewrite Hstep, Hname, (Hver "a " ">= 1.0"); reflexivity.
Defined.

(** C6, as the specification states it, fails: when text follows the closing
    parenthesis, the version is not the constraint without its parentheses. *)
Lemma text_after_constraint_stays_in_version :
  decompose "a (>= 1.0) [amd64] | b" =
  ([VDict [("name", VStr "a"); ("version", VStr ">= 1.0) [amd64]")]],
   [alias_entry "a" "b"]) /\
  Spec.inside_first_pair "(" ")" "a (>= 1.0) [amd64]" = Some ">= 1.0" /\
  Some ">= 1.0) [amd64]" <> Spec.inside_first_pair "(" ")" "a (>= 1.0) [amd64]".
Proof. split; [reflexivity|split; [reflexivity|discriminate]]. Qed.

(** The maintainer field, cut at its first ["<"]. *)
Lemma maintainer_cut (pre rest : string) :
  contains "<" pre = false ->
  maintainer_name (pre ++ "<" ++ rest) = strip pre /\
  maintainer_email (pre ++ "<" ++ rest) =
  strip_chars ">" (hd "" (split "<" rest)).
Proof.
  intros Hpre. unfold maintainer_name, maintainer_email.
  change (pre ++ "<" ++ rest)%string with (pre ++ String "<" rest)%string.
  rewrite contains_app. cbn [contains Ascii.eqb Bool.eqb].
  rewrite orb_true_r, split_app by assumption.
  split; [reflexivity|]. cbn [nth].
  now destruct (split "<" rest).
Qed.

Section StripFixed.

Variable p : ascii -> bool.

Lemma rstrip_with_fixed (s : string) :
  (forall c, contains c s = true -> p c = false) -> rstrip_with p s = s.
Proof.
  induction s as [|a r IH]; intros H; [reflexivity|].
  cbn [rstrip_with]. rewrite IH.
  - destruct r; [|reflexivity].
    rewrite (H a); [reflexivity|]. simpl. now rewrite Ascii.eqb_refl.
  - intros c Hc. apply H. simpl. rewrite Hc. apply orb_true_r.
Qed.

(** Stripping leaves a string without strippable characters as it is. *)
Lemma strip_with_fixed (s : string) :
  (forall c, contains c s = true -> p c = false) -> strip_with p s = s.
Proof.
  intros H. unfold strip_with.
  assert (Hl : lstrip_with p s = s).
  { destruct s as [|a r]; [reflexivity|]. simpl.
    rewrite (H a); [reflexivity|]. simpl. now rewrite Ascii.eqb_refl. }
  rewrite Hl. now apply rstrip_with_fixed.
Qed.

End StripFixed.

Lemma strip_chars_absent (x : ascii) (s : string) :
  contains x s = false -> strip_chars (String x "") s = s.
Proof.
  intros H. unfold strip_chars. apply strip_with_fixed.
  intros c Hc. simpl. rewrite orb_false_r.
  destruct (Ascii.eqb_spec x c) as [->|_]; [congruence|reflexivity].
Qed.

Lemma upto_closing (close : ascii) (s rest : string) :
  contains close s = false ->
  Spec.upto close (s ++ String close rest) = Some s.
Proof.
  induction s as [|c r IH]; simpl.
  - intros _. now rewrite Ascii.eqb_refl.
  - intros H. apply orb_false_iff in H as [Hc Hr].
    now rewrite Hc, (IH Hr).
Qed.

Lemma inside_first_pair_cut (open close : ascii) (pre s rest : string) :
  contains open pre = false -> contains close s = false ->
  Spec.inside_first_pair open close
    (pre ++ String open (s ++ String close rest)) =
  Some s.
Proof.
  intros Hpre Hs. induction pre as [|c r IH]; simpl.
  - rewrite Ascii.eqb_refl. now apply upto_closing.
  - simpl in Hpre. apply orb_false_iff in Hpre as [Hc Hr].
    rewrite Hc. now apply IH.
Qed.

(** C7, as the code has it: without ["<"] the name is the whole field and the
    email is empty; with it, the name is the trimmed text before the first
    ["<"] and the email is the text from there to the next ["<"] or the end,
    without the [">"] at its two ends.  For a field [pre<mail>] that ends at
    the closing bracket, with no ["<"] in [pre] and none in [mail], the email
    is [mail] when [mail] has no [">"] at either end, and it is the text
    inside the first pair of brackets when [mail] has no [">"] at all. *)
Theorem maintainer_split (s : dict string) (r : value) (m : string) :
  parse_package_data s = Ret r -> dict_get "Maintainer" s = Some m ->
  exists name email,
    value_get "maintainer" r =
    Some (VDict [("name", VStr name); ("email", VStr email)]) /\
    (contains "<" m = false -> name = m /\ email = "") /\
    (forall pre rest,
        m = (pre ++ "<" ++ rest)%string -> contains "<" pre = false ->
        name = strip pre /\
        email = strip_chars ">" (hd "" (split "<" rest))) /\
    (forall pre mail,
        m = (pre ++ "<" ++ mail ++ ">")%string ->
        contains "<" pre = false -> contains "<" mail = false ->
        strip_chars ">" mail = mail ->
        name = strip pre /\ email = mail) /\
    (forall pre mail,
        m = (pre ++ "<" ++ mail ++ ">")%string ->
        contains "<" pre = false -> contains "<" mail = false ->
        contains ">" mail = false ->
        Spec.inside_first_pair "<" ">" m = Some email).
Proof.
  intros Hr Hm. destruct (dict_get "Package" s) as [pkg|] eqn:Hp.
  - rewrite (parse_package_data_returns s pkg Hp) in Hr. injection Hr as <-.
    unfold dict_get_default. rewrite Hm.
    exists (maintainer_name m), (maintainer_email m).
    assert (Hpair : forall pre mail,
               m = (pre ++ "<" ++ mail ++ ">")%string ->
               contains "<" pre = false -> contains "<" mail = false ->
               strip_chars ">" mail = mail ->
               maintainer_name m = strip pre /\ maintainer_email m = mail).
    { intros pre mail -> Hpre Hmail Hs.
      destruct (maintainer_cut pre (mail ++ ">") Hpre) as [-> ->].
      split; [reflexivity|].
      rewrite split_without by (rewrite contains_app, Hmail; reflexivity).
      cbn [hd]. unfold strip_chars in *.
      rewrite strip_with_snoc by reflexivity. exact Hs. }
    split; [reflexivity|]. split; [|split; [|split]].
    + intros H. unfold maintainer_name, maintainer_email. now rewrite H.
    + intros pre rest -> Hpre. now apply maintainer_cut.
    + exact Hpair.
    + intros pre mail E Hpre Hmail Hgt.
      destruct (Hpair pre mail E Hpre Hmail (strip_chars_absent ">" mail Hgt))
        as [_ ->].
      rewrite E. now apply inside_first_pair_cut.
  - rewrite (parse_package_data_raises s Hp) in Hr. discriminate Hr.
Qed.

Lemma maintainer_split_witness :
  exists r name email,
    parse_package_data
      [("Package", "p"); ("Maintainer", "Jane Doe <jane@x.org>")] = Ret r /\
    value_get "maintainer" r =
    Some (VDict [("name", VStr name); ("email", VStr email)]) /\
    name = "Jane Doe" /\ email = "jane@x.org" /\
    Spec.inside_first_pair "<" ">" "Jane Doe <jane@x.org>" = Some email.
Proof.
  eexists.
  destruct (maintainer_split
              [("Package", "p"); ("Maintainer", "Jane Doe <jane@x.org>")]
              _ "Jane Doe <jane@x.org>" eq_refl eq_refl)
    as (name & email & Hv & _ & _ & Hpair & Hinside).
  exists name, email. split; [reflexivity|]. split; [exact Hv|].
  destruct (Hpair "Jane Doe " "jane@x.org") as [Hn He]; try reflexivity.
  split; [exact Hn|]. split; [exact He|].
  apply (Hinside "Jane Doe " "jane@x.org"); reflexivity.
Defined.

(** A second ["<"] ends the email, whatever follows it. *)
Example email_ends_at_next_bracket :
  maintainer_email "A <b<c>" = "b" /\
  maintainer_email "A <b>c>" = "b>c".
Proof. split; reflexivity. Qed.

(** The two examples of the specification. *)
Example maintainer_with_email :
  maintainer_name "Jane Doe <jane@x.org>" = "Jane Doe" /\
  maintainer_email "Jane Doe <jane@x.org>" = "jane@x.org".
Proof. split; reflexivity. Qed.

Example maintainer_without_email :
  maintainer_name "Jane Doe" = "Jane Doe" /\ maintainer_email "Jane Doe" = "".
Proof. split; reflexivity. Qed.

(** C7, as the specification states it, fails: when text follows the closing
    bracket, the email is not the text inside the first pair. *)
Lemma text_after_bracket_stays_in_email :
  exists r,
    parse_package_data
      [("Package", "p"); ("Maintainer", "Jane Doe <jane@x.org> (team)")] =
    Ret r /\
    value_get "maintainer" r =
    Some (VDict [("name", VStr "Jane Doe");
                 ("email", VStr "jane@x.org> (team)")]) /\
    Spec.inside_first_pair "<" ">" "Jane Doe <jane@x.org> (team)" =
    Some "jane@x.org" /\
    Some "jane@x.org> (team)" <>
    Spec.inside_first_pair "<" ">" "Jane Doe <jane@x.org> (team)".
Proof.
  eexists. split; [reflexivity|]. split; [reflexivity|].
  split; [reflexivity|discriminate].
Qed.

(** The version of an item: what stands between the first ["("] and the
    next one, or the end, without the [")"] at its two ends. *)
Lemma primary_item_cut (nm rest : string) :
  contains "(" nm = false ->
  primary_item (nm ++ "(" ++ rest) =
  [("name", VStr (strip nm));
   ("version", VStr (strip_chars ")" (hd "" (split "(" rest))))].
Proof.
  intros Hnm. unfold primary_item.
  change (nm ++ "(" ++ rest)%string with (nm ++ String "(" rest)%string.
  rewrite split_app by assumption.
  destruct (split "(" rest) as [|h t] eqn:E; [now apply split_not_nil in E|].
  reflexivity.
Qed.

Lemma item_at_split_0 (sep : ascii) (s : string) :
  item_at (split sep s) 0 = inr (hd "" (split sep s)).
Proof.
  destruct (split sep s) as [|h t] eqn:E; [now apply split_not_nil in E|].
  reflexivity.
Qed.

Lemma item_at_nth {A : Type} (l : list A) (i : nat) (d : A) :
  i < List.length l -> item_at l i = inr (nth i l d).
Proof.
  intros H. unfold item_at. now rewrite (nth_error_nth' l d H).
Qed.

(** No subscript of the clause loop is ever out of range. *)
Lemma dep_step_checked_agrees (acc : list value * list value)
  (dep : string) :
  dep_step_checked acc dep = inr (dep_step acc dep).
Proof.
  destruct acc as [deps aliases]. unfold dep_step_checked, dep_step.
  destruct (nonempty (strip dep) && negb (startswith "${" (strip dep)));
    [|reflexivity].
  rewrite item_at_split_0. cbn [bind_checked].
  rewrite item_at_split_0. cbn [bind_checked].
  destruct (Nat.ltb_spec 1
              (List.length
                 (split "(" (strip (hd "" (split "|" (strip dep)))))))
    as [Hlt|Hge]; [|reflexivity].
  rewrite (item_at_nth _ 1 "" Hlt). reflexivity.
Qed.

Lemma clauses_checked_agrees (clauses : list string) :
  forall acc, clauses_checked clauses acc = inr (fold_left dep_step clauses acc).
Proof.
  induction clauses as [|c l IH]; intros acc; simpl; [reflexivity|].
  rewrite dep_step_checked_agrees. cbn [bind_checked]. apply IH.
Qed.

Lemma field_step_checked_agrees (s : dict string) (d : dict value)
  (f : string) :
  field_step_checked s d f = inr (field_step s d f).
Proof.
  unfold field_step_checked, field_step, dict_mem, key_at, decompose.
  destruct (dict_get f s) as [raw|]; [|reflexivity]. cbn [bind_checked].
  rewrite clauses_checked_agrees. cbn [bind_checked].
  destruct (fold_left dep_step (split "," raw) ([], []))
    as [deps [|a al]]; reflexivity.
Qed.

Lemma fields_checked_agrees (s : dict string) (fields : list string) :
  forall d,
    fields_checked s fields d = inr (fold_left (field_step s) fields d).
Proof.
  induction fields as [|f l IH]; intros d; simpl; [reflexivity|].
  rewrite field_step_checked_agrees. cbn [bind_checked]. apply IH.
Qed.

Lemma maintainer_name_checked_agrees (m : string) :
  maintainer_name_checked m = inr (maintainer_name m).
Proof.
  unfold maintainer_name_checked, maintainer_name.
  destruct (contains "<" m); [|reflexivity].
  now rewrite item_at_split_0.
Qed.

Lemma maintainer_email_checked_agrees (m : string) :
  maintainer_email_checked m = inr (maintainer_email m).
Proof.
  unfold maintainer_email_checked, maintainer_email.
  destruct (contains "<" m) eqn:Hc; [|reflexivity].
  destruct (split_with "<" m Hc) as (a & b & rest & ->). reflexivity.
Qed.

(** The builder with checked subscripts raises nothing but the [KeyError] of
    a stanza without ["Package"], and returns what [parse_package_data]
    returns: no [IndexError] is possible, the guards see to it. *)
Lemma parse_package_data_checked_agrees (s : dict string) :
  parse_package_data_checked s =
  match parse_package_data s with
  | Ret r => inr r
  | KeyError key => inl (ErrKey key)
  end.
Proof.
  unfold parse_package_data_checked, parse_package_data, dependencies_of.
  rewrite fields_checked_agrees. cbn [bind_checked].
  rewrite maintainer_name_checked_agrees. cbn [bind_checked].
  rewrite maintainer_email_checked_agrees. cbn [bind_checked].
  unfold key_at, dict_item.
  destruct (dict_get "Package" s) as [name|]; [|reflexivity].
  cbn [bind_checked bind]. rewrite item_at_split_0. reflexivity.
Qed.

(** C8, as the code has it: with a ["Package"] key the builder never raises,
    neither on a key nor on an index, and returns a record with its five
    keys; an accepted clause always gives an item, the trimmed alternative
    alone when it has no ["("], and with a ["("] a name and a version, which
    nothing validates: the version is what stands between the first ["("]
    and the next one, or the end of the alternative, without the [")"] at
    its two ends. *)
Theorem parse_package_data_never_raises (s : dict string) :
  dict_mem "Package" s = true ->
  (exists r,
      parse_package_data_checked s = inr r /\
      parse_package_data s = Ret r /\
      forall k,
        In k ["name"; "version"; "dependencies"; "description"; "maintainer"] ->
        exists v, value_get k r = Some v) /\
  (forall deps aliases clause,
      accepted clause = true ->
      let main_dep := strip (hd "" (split "|" (strip clause))) in
      exists item aliases',
        dep_step_checked (deps, aliases) clause =
        inr (deps ++ [VDict item], aliases') /\
        dep_step (deps, aliases) clause = (deps ++ [VDict item], aliases') /\
        (contains "(" main_dep = false -> item = [("name", VStr main_dep)]) /\
        (contains "(" main_dep = true ->
         exists name version,
           item = [("name", VStr name); ("version", VStr version)]) /\
        (forall nm rest,
            main_dep = (nm ++ "(" ++ rest)%string ->
            contains "(" nm = false ->
            item =
            [("name", VStr (strip nm));
             ("version",
               VStr (strip_chars ")" (hd "" (split "(" rest))))])).
Proof.
  intros Hp. apply dict_mem_get in Hp as [pkg Hp]. split.
  - eexists. split; [|split; [exact (parse_package_data_returns s pkg Hp)|]].
    + rewrite parse_package_data_checked_agrees.
      now rewrite (parse_package_data_returns s pkg Hp).
    + intros k Hk. cbn [In] in Hk.
      repeat (destruct Hk as [<-|Hk]; [now eexists|]). contradiction.
  - intros deps aliases clause Hacc main_dep.
    exists (primary_item main_dep). eexists.
    split; [|split; [exact (dep_step_accepted deps aliases clause Hacc)|]].
    + rewrite dep_step_checked_agrees.
      now rewrite (dep_step_accepted deps aliases clause Hacc).
    + split; [|split].
      * intros H. rewrite (primary_item_plain main_dep H).
        unfold main_dep, strip. now rewrite strip_with_idem.
      * apply primary_item_versioned.
      * intros nm rest -> Hnm. now apply primary_item_cut.
Qed.

Lemma parse_package_data_never_raises_witness :
  exists r,
    parse_package_data_checked [("Package", "p"); ("Depends", "a (b (c)")] =
    inr r /\
    exists v, value_get "dependencies" r = Some v.
Proof.
  destruct (parse_package_data_never_raises
              [("Package", "p"); ("Depends", "a (b (c)")] eq_refl)
    as [(r & Hc & Hr & Hkeys) _].
  exists r. split; [exact Hc|]. apply Hkeys. cbn. auto.
Defined.

(** A second parenthesis ends the version, and an unclosed one gives the
    empty version. *)
Example version_ends_at_next_parenthesis :
  fst (decompose "a (b (c)") =
  [VDict [("name", VStr "a"); ("version", VStr "b ")]] /\
  fst (decompose "a (") =
  [VDict [("name", VStr "a"); ("version", VStr "")]].
Proof. split; reflexivity. Qed.

(** C8, as the specification states it, fails: a constraint that cannot be
    parsed is not left out, the item carries it as its version. *)
Lemma unparseable_constraint_is_kept :
  exists r deps item,
    parse_package_data [("Package", "p"); ("Depends", "a (")] = Ret r /\
    value_get "dependencies" r = Some (VDict deps) /\
    dict_get "depends" deps = Some (VList [VDict item]) /\
    item = [("name", VStr "a"); ("version", VStr "")] /\
    dict_mem "version" item <> false.
Proof.
  eexists _, _, _. split; [reflexivity|]. split; [reflexivity|].
  split; [reflexivity|]. split; [reflexivity|discriminate].
Qed.

(** The record depends on the stanza through its lookups alone.  Two
    stanzas with the same value under every key, in whatever order, give the
    same record, and what is stored for a relation field is a function of the
    raw string of that field. *)
Theorem parse_package_data_deterministic (s1 s2 : dict string) :
  (forall k, dict_get k s1 = dict_get k s2) ->
  parse_package_data s1 = parse_package_data s2 /\
  (forall f raw,
      In f dep_fields -> dict_get f s1 = Some raw ->
      dict_get (lower f) (dependencies_of s2) =
      Some (VList (fst (decompose raw))) /\
      dict_get (lower f ++ "_aliases") (dependencies_of s2) =
      match snd (decompose raw) with
      | [] => None
      | al => Some (VList al)
      end).
Proof.
  intros Hext. split.
  - assert (Hdeps : dependencies_of s1 = dependencies_of s2).
    { unfold dependencies_of. apply fold_left_pointwise.
      intros d f. unfold field_step. now rewrite Hext. }
    unfold parse_package_data, dict_item, dict_get_default.
    now rewrite Hdeps, !Hext.
  - intros f raw Hf Hraw. rewrite Hext in Hraw.
    rewrite (dependencies_of_items s2 f Hf).
    rewrite (dependencies_of_aliases s2 f Hf), Hraw. now split.
Qed.

Lemma parse_package_data_deterministic_witness :
  parse_package_data [("Package", "p"); ("Depends", "a | b")] =
  parse_package_data [("Depends", "a | b"); ("Package", "p")].
Proof.
  apply (parse_package_data_deterministic
           [("Package", "p"); ("Depends", "a | b")]
           [("Depends", "a | b"); ("Package", "p")]).
  intros k. cbn [dict_get].
  destruct (String.eqb_spec "Package" k) as [<-|_]; [reflexivity|].
  now destruct (String.eqb_spec "Depends" k).
Defined.

(** C10: a stanza with ["Package"] gives a record even when ["Version"],
    ["Description"] or ["Maintainer"] is missing; the missing one is there
    with its default, the empty string, or the name and email both empty. *)
Theorem missing_metadata_defaulted (s : dict string) :
  dict_mem "Package" s = true ->
  exists r,
    parse_package_data s = Ret r /\
    (dict_mem "Version" s = false ->
     value_get "version" r = Some (VStr "")) /\
    (dict_mem "Description" s = false ->
     value_get "description" r = Some (VStr "")) /\
    (dict_mem "Maintainer" s = false ->
     value_get "maintainer" r =
     Some (VDict [("name", VStr ""); ("email", VStr "")])).
Proof.
  intros Hp. apply dict_mem_get in Hp as [pkg Hp].
  eexists. split; [exact (parse_package_data_returns s pkg Hp)|].
  unfold dict_mem, dict_get_default.
  repeat split; intros H; cbn [value_get dict_get String.eqb Ascii.eqb Bool.eqb].
  - now destruct (dict_get "Version" s).
  - now destruct (dict_get "Description" s).
  - now destruct (dict_get "Maintainer" s).
Qed.

Lemma missing_metadata_defaulted_witness :
  exists r,
    parse_package_data [("Package", "p")] = Ret r /\
    value_get "version" r = Some (VStr "") /\
    value_get "description" r = Some (VStr "") /\
    value_get "maintainer" r =
    Some (VDict [("name", VStr ""); ("email", VStr "")]).
Proof.
  destruct (missing_metadata_defaulted [("Package", "p")] eq_refl)
    as (r & Hr & Hv & Hd & Hm).
  exists r. repeat split; auto.
Defined.

(* ================================================================== *)
(** ** The reader, the command and the specification *)

(** C1: the continuation line is lost.  After [Depends: foo,] the line
    [ bar] changes nothing, the stanza keeps ["foo,"] and its record has the
    one item [foo]. *)
Theorem continuation_line_is_dropped :
  read_line None [] [("Package", "p")] ("Depends: foo," ++ nl) =
  Ret (Continue [] [("Package", "p"); ("Depends", "foo,")]) /\
  read_line None [] [("Package", "p"); ("Depends", "foo,")] (" bar" ++ nl) =
  Ret (Continue [] [("Package", "p"); ("Depends", "foo,")]) /\
  packages_of (text ["Package: p"; "Depends: foo,"; " bar"; ""]) None =
  Ret [("p",
        VDict
          [("name", VStr "p"); ("version", VStr "");
           ("dependencies",
             VDict [("depends", VList [VDict [("name", VStr "foo")]])]);
           ("description", VStr "");
           ("maintainer", VDict [("name", VStr ""); ("email", VStr "")])])].
Proof. split; [reflexivity|split; reflexivity]. Qed.

(** The branch that folds a continuation line is never taken: whatever the
    line and the stanza, the line is handled as a blank line, as a field
    line, or not at all. *)
Lemma continuation_branch_is_dead (head : option Z) (pk : dict value)
  (cur : dict string) (raw : string) :
  nonempty (strip raw) = true ->
  read_line head pk cur raw =
  if contains ":" (strip raw)
  then match split1 ":" (strip raw) with
       | key :: val :: _ =>
           Ret (Continue pk (dict_set (strip key) (strip val) cur))
       | _ => Ret (Continue pk cur)
       end
  else Ret (Continue pk cur).
Proof.
  intros Hne. unfold read_line.
  rewrite Hne, strip_not_startswith_space, andb_true_r. cbn [negb andb].
  now destruct (contains ":" (strip raw)).
Qed.

(** C4: the last stanza is lost when no blank line follows it, and kept when
    one does. *)
Theorem last_stanza_without_blank_line_is_lost :
  parse_packages_file (text ["Package: p"] ++ ["Version: 1"]) None =
  Ret ([], 2) /\
  parse_packages_file (text ["Package: p"; "Version: 1"]) None =
  Ret ([], 2) /\
  parse_packages_file (text ["Package: p"; "Version: 1"; ""]) None =
  Ret ([("p", bare_record "p" "1")], 3).
Proof. split; [reflexivity|split; reflexivity]. Qed.

(** C2, as the code has it: [parse] dumps the records of every file, file
    after file, with nothing merged between files.  Within one file every
    name has one record, and a blank line stores the record of its stanza
    over the one an earlier stanza of that name left. *)
Theorem parse_appends_every_file (head : option Z) (f : list string)
  (rest : list (list string)) :
  exists per_file,
    files_read head (f :: rest) per_file /\
    parse (f :: rest) head = Ret (Some (flat_map dict_values per_file)) /\
    Forall (fun pk => NoDup (dict_keys pk)) per_file /\
    (forall pk cur raw name,
        nonempty (strip raw) = false -> dict_get "Package" cur = Some name ->
        exists record,
          parse_package_data cur = Ret record /\
          (read_line head pk cur raw =
           Ret (Continue (dict_set name record pk) []) \/
           read_line head pk cur raw = Ret (Break (dict_set name record pk))) /\
          dict_get name (dict_set name record pk) = Some record).
Proof.
  destruct (collect_appends head (f :: rest) []) as (per & Hper & Hnd & Hcol).
  exists per. split; [exact Hper|]. split; [|split; [exact Hnd|]].
  - unfold parse. destruct (count_all_returns head (f :: rest)) as [total ->].
    cbn [bind]. rewrite Hcol. reflexivity.
  - intros pk cur raw name Hne Hp.
    destruct (read_line_blank_flush head pk cur raw name Hne Hp)
      as (record & Hr & E).
    exists record. split; [exact Hr|]. split; [|apply dict_get_set_same].
    rewrite E. destruct (cap_reached head _); auto.
Qed.

(** C2, as the specification states it, fails: [foo] in two files comes out
    twice, first in the version of the first file and then in that of the
    second; [foo] twice in one file comes out in the later version. *)
Lemma first_seen_does_not_win :
  exists out,
    parse [foo_file "1"; foo_file "2"] None = Ret (Some out) /\
    out = [bare_record "foo" "1"; bare_record "foo" "2"] /\
    ~ NoDup (map (value_get "name") out) /\
    packages_of (foo_file "1" ++ foo_file "2") None =
    Ret [("foo", bare_record "foo" "2")].
Proof.
  eexists. split; [reflexivity|]. split; [reflexivity|]. split; [|reflexivity].
  intros H. inversion H as [|x l Hin _]; subst. apply Hin. now left.
Qed.

(** C3, as the code has it: a positive cap bounds the records of each file.
    A file gives at most [N] records; with fewer than [N] it was read to its
    end; with [N] the loop stopped on the line that stored the last one,
    nothing after that line is read, and one line earlier there were fewer.
    [parse] applies the cap to every file anew. *)
Theorem cap_applies_to_each_file (N : Z) (f : list string)
  (rest : list (list string)) :
  (0 < N)%Z ->
  (forall file,
      exists pk n,
        parse_packages_file file (Some N) = Ret (pk, n) /\
        (Z.of_nat (List.length pk) <= N)%Z /\
        n <= List.length file /\
        ((Z.of_nat (List.length pk) < N)%Z -> n = List.length file) /\
        (Z.of_nat (List.length pk) = N ->
         0 < n /\
         (forall more,
             parse_packages_file (firstn n file ++ more) (Some N) =
             Ret (pk, n)) /\
         (exists pk',
             parse_packages_file (firstn (n - 1) file) (Some N) =
             Ret (pk', n - 1) /\
             (Z.of_nat (List.length pk') < N)%Z))) /\
  (exists per_file,
      files_read (Some N) (f :: rest) per_file /\
      parse (f :: rest) (Some N) =
      Ret (Some (flat_map dict_values per_file)) /\
      Forall (fun pk => (Z.of_nat (List.length pk) <= N)%Z) per_file /\
      (Z.of_nat (List.length (flat_map dict_values per_file)) <=
       N * Z.of_nat (List.length (f :: rest)))%Z).
Proof.
  intros HN.
  assert (Hfile : forall file,
             exists pk n,
               parse_packages_file file (Some N) = Ret (pk, n) /\
               (Z.of_nat (List.length pk) <= N)%Z /\
               n <= List.length file /\
               ((Z.of_nat (List.length pk) < N)%Z -> n = List.length file) /\
               (Z.of_nat (List.length pk) = N ->
                0 < n /\
                (forall more,
                    parse_packages_file (firstn n file ++ more) (Some N) =
                    Ret (pk, n)) /\
                (exists pk',
                    parse_packages_file (firstn (n - 1) file) (Some N) =
                    Ret (pk', n - 1) /\
                    (Z.of_nat (List.length pk') < N)%Z))).
  { intros file. unfold parse_packages_file.
    destruct (read_lines_capped N HN file [] [] 0)
      as (pk & n & Hrun & Hle & Hn & Hall & Hbrk); [simpl; lia|].
    exists pk, n. split; [exact Hrun|]. split; [exact Hle|].
    split; [lia|]. split; [exact Hall|].
    intros Heq. destruct (Hbrk Heq) as (Hpos & Hmore & Hpre).
    rewrite !Nat.sub_0_r in *. now split. }
  split; [exact Hfile|].
  destruct (parse_appends_per_file (Some N) f rest)
    as (per & Hper & Hparse).
  exists per. split; [exact Hper|]. split; [exact Hparse|].
  assert (Hbound : Forall (fun pk => (Z.of_nat (List.length pk) <= N)%Z) per).
  { clear Hparse. unfold files_read in Hper.
    induction Hper as [|file pk fs ps Hpk _ IH]; constructor; [|exact IH].
    destruct (Hfile file) as (pk0 & n & Hrun & Hle & _).
    unfold packages_of in Hpk. rewrite Hrun in Hpk.
    injection Hpk as <-. exact Hle. }
  split; [exact Hbound|].
  apply Forall2_length in Hper. rewrite Hper. clear Hper Hparse.
  induction Hbound as [|pk ps Hpk _ IH]; [simpl; lia|].
  cbn [flat_map List.length]. rewrite length_app. unfold dict_values at 1.
  rewrite length_map. lia.
Qed.

Lemma cap_applies_to_each_file_witness :
  exists pk n,
    parse_packages_file (ten_stanzas "a") (Some 3%Z) = Ret (pk, n) /\
    (Z.of_nat (List.length pk) <= 3)%Z /\
    n <= List.length (ten_stanzas "a").
Proof.
  destruct (cap_applies_to_each_file 3 (ten_stanzas "a") [ten_stanzas "b"]
              eq_refl) as [Hfile _].
  destruct (Hfile (ten_stanzas "a")) as (pk & n & Hrun & Hle & Hn & _).
  now exists pk, n.
Defined.

(** The example of the specification: of ten stanzas on twenty lines, a cap of
    three keeps the first three and reads six lines. *)
Example ten_stanzas_cap_three :
  exists pk,
    parse_packages_file (ten_stanzas "a") (Some 3%Z) = Ret (pk, 6) /\
    dict_keys pk = ["a0"; "a1"; "a2"] /\
    List.length (ten_stanzas "a") = 20.
Proof.
  eexists. split; [vm_compute; reflexivity|]. split; reflexivity.
Qed.

(** A cap of zero is no cap, and a negative one stops at the first record. *)
Example cap_zero_and_negative :
  (exists pk,
      parse_packages_file (ten_stanzas "a") (Some 0%Z) = Ret (pk, 20) /\
      List.length pk = 10) /\
  (exists pk,
      parse_packages_file (ten_stanzas "a") (Some (-1)%Z) = Ret (pk, 2) /\
      List.length pk = 1).
Proof.
  split; eexists; (split; [vm_compute; reflexivity|reflexivity]).
Qed.

(** C3, as the specification states it, fails: two files of ten stanzas at a
    cap of three give six records, three of each file. *)
Lemma cap_is_not_global :
  exists out,
    parse [ten_stanzas "a"; ten_stanzas "b"] (Some 3%Z) = Ret (Some out) /\
    map (value_get "name") out =
    map (fun n => Some (VStr n)) ["a0"; "a1"; "a2"; "b0"; "b1"; "b2"] /\
    ~ List.length out <= 3.
Proof.
  eexists. split; [vm_compute; reflexivity|]. split; [reflexivity|].
  simpl. lia.
Qed.


(* ================================================================== *)
(** ** More on the decomposition of a relation field *)

Section MoreSplitFacts.

Variable sep : ascii.

(** Splitting distributes over a separator between two strings. *)
Lemma split_app_sep (a b : string) :
  split sep (a ++ String sep b) = split sep a ++ split sep b.
Proof.
  induction a as [|c r IH]; simpl.
  - now rewrite Ascii.eqb_refl.
  - destruct (Ascii.eqb c sep); rewrite IH; [reflexivity|].
    destruct (split sep r) as [|h t] eqn:E; [|reflexivity].
    now apply split_not_nil in E.
Qed.

(** No piece of a split holds the separator. *)
Lemma split_pieces_without (s : string) :
  Forall (fun piece => contains sep piece = false) (split sep s).
Proof.
  induction s as [|c r IH]; simpl; [repeat constructor|].
  destruct (Ascii.eqb c sep) eqn:E; [now constructor|].
  destruct (split sep r) as [|h t]; [repeat constructor; simpl; now rewrite E|].
  inversion IH; subst. constructor; [simpl; now rewrite E|assumption].
Qed.

(** Every piece of a split is made of characters of the string. *)
Lemma split_pieces_within (c : ascii) (s : string) :
  Forall (fun piece => contains c piece = true -> contains c s = true)
    (split sep s).
Proof.
  induction s as [|x r IH]; simpl; [repeat constructor; auto|].
  destruct (Ascii.eqb x sep) eqn:E.
  - constructor; [discriminate|].
    eapply Forall_impl; [|exact IH]. cbn beta. intros p Hp H.
    rewrite (Hp H). apply orb_true_r.
  - destruct (split sep r) as [|h t].
    + constructor; [|constructor]. simpl. rewrite orb_false_r.
      intros ->. reflexivity.
    + inversion IH as [|h' t' Hh Ht]; subst. constructor.
      * simpl. intros H. apply orb_true_iff in H as [H|H].
        -- now rewrite H.
        -- rewrite (Hh H). apply orb_true_r.
      * eapply Forall_impl; [|exact Ht]. cbn beta. intros p Hp H.
        rewrite (Hp H). apply orb_true_r.
Qed.

Lemma split_hd_In (s : string) : In (hd "" (split sep s)) (split sep s).
Proof.
  destruct (split sep s) as [|h t] eqn:E; [now apply split_not_nil in E|].
  now left.
Qed.

End MoreSplitFacts.

Section MoreStripFacts.

Variable p : ascii -> bool.

Lemma lstrip_with_within (c : ascii) (s : string) :
  contains c (lstrip_with p s) = true -> contains c s = true.
Proof.
  induction s as [|x r IH]; simpl; [auto|].
  destruct (p x); [|auto]. intros H. rewrite (IH H). apply orb_true_r.
Qed.

Lemma rstrip_with_within (c : ascii) (s : string) :
  contains c (rstrip_with p s) = true -> contains c s = true.
Proof.
  induction s as [|x r IH]; simpl; [auto|].
  destruct (rstrip_with p r) as [|y r'].
  - destruct (p x); simpl; [discriminate|].
    rewrite orb_false_r. intros ->. reflexivity.
  - simpl in *. intros H. apply orb_true_iff in H as [H|H].
    + now rewrite H.
    + rewrite (IH H). apply orb_true_r.
Qed.

(** Stripping adds no character. *)
Lemma strip_with_within (c : ascii) (s : string) :
  contains c (strip_with p s) = true -> contains c s = true.
Proof.
  unfold strip_with. intros H.
  now apply lstrip_with_within, rstrip_with_within.
Qed.

Lemma strip_with_without (c : ascii) (s : string) :
  contains c s = false -> contains c (strip_with p s) = false.
Proof.
  intros H. destruct (contains c (strip_with p s)) eqn:E; [|reflexivity].
  apply strip_with_within in E. congruence.
Qed.

End MoreStripFacts.

(** One pass adds to the accumulators what it adds to empty ones. *)
Lemma dep_step_acc (deps aliases : list value) (clause : string) :
  dep_step (deps, aliases) clause =
  (deps ++ (if accepted clause then [clause_item clause] else []),
   aliases ++ (if accepted clause then clause_aliases clause else [])).
Proof.
  destruct (accepted clause) eqn:E.
  - exact (dep_step_accepted deps aliases clause E).
  - rewrite dep_step_rejected by assumption. now rewrite !app_nil_r.
Qed.

Lemma fold_dep_step (clauses : list string) :
  forall deps aliases,
    fold_left dep_step clauses (deps, aliases) =
    (deps ++ map clause_item (filter accepted clauses),
     aliases ++ flat_map clause_aliases (filter accepted clauses)).
Proof.
  induction clauses as [|c l IH]; intros deps aliases;
    cbn [fold_left filter].
  - cbn. now rewrite !app_nil_r.
  - rewrite dep_step_acc, IH. destruct (accepted c); cbn [map flat_map].
    + now rewrite <- !app_assoc.
    + now rewrite !app_nil_r.
Qed.

(** The loop over the clauses is a filter followed by a map. *)
Lemma decompose_closed (raw : string) :
  decompose raw =
  (map clause_item (filter accepted (split "," raw)),
   flat_map clause_aliases (filter accepted (split "," raw))).
Proof. unfold decompose. now rewrite fold_dep_step. Qed.

(** X1: a field decomposes clause by clause: the items and the aliases of two
    strings joined by a comma are those of the first followed by those of the
    second. *)
Theorem decompose_comma (a b : string) :
  decompose (a ++ "," ++ b) =
  (fst (decompose a) ++ fst (decompose b),
   snd (decompose a) ++ snd (decompose b)).
Proof.
  rewrite !decompose_closed. cbn [fst snd].
  change (a ++ "," ++ b)%string with (a ++ String "," b)%string.
  rewrite split_app_sep, filter_app, map_app, flat_map_app. reflexivity.
Qed.

(** X2: every alias of a field points at an item of the same field: its
    source is the name of one of the items. *)
Theorem alias_source_is_an_item (raw : string) (alias : value) :
  In alias (snd (decompose raw)) ->
  exists name target item,
    alias = alias_entry name target /\
    In (VDict item) (fst (decompose raw)) /\
    dict_get "name" item = Some (VStr name).
Proof.
  rewrite decompose_closed. cbn [fst snd]. intros H.
  apply in_flat_map in H as (clause & Hc & Ha).
  unfold clause_aliases in Ha. apply in_map_iff in Ha as (a & <- & _).
  exists (clause_name clause), (strip a). eexists.
  split; [reflexivity|]. split.
  - apply in_map_iff. exists clause. split; [reflexivity|exact Hc].
  - apply primary_item_name.
Qed.

Lemma alias_source_is_an_item_witness :
  exists name target item,
    alias_entry "a" "b" = alias_entry name target /\
    In (VDict item) (fst (decompose "x, a (>= 1.0) | b")) /\
    dict_get "name" item = Some (VStr name).
Proof.
  apply (alias_source_is_an_item "x, a (>= 1.0) | b" (alias_entry "a" "b")).
  simpl. auto.
Defined.

Lemma split_piece_without (sep c : ascii) (s piece : string) :
  In piece (split sep s) -> contains c s = false -> contains c piece = false.
Proof.
  intros Hin Hs. destruct (contains c piece) eqn:E; [|reflexivity].
  pose proof (split_pieces_within sep c s) as H.
  rewrite Forall_forall in H. rewrite (H piece Hin E) in Hs. discriminate.
Qed.

Lemma split_hd_without (sep : ascii) (s : string) :
  contains sep (hd "" (split sep s)) = false.
Proof.
  pose proof (split_pieces_without sep s) as H.
  rewrite Forall_forall in H. apply H, split_hd_In.
Qed.

(** The name of a clause holds no character that the splits before it cut
    at. *)
Lemma clause_name_clean (c : ascii) (clause : string) :
  contains c clause = false \/ c = "|"%char \/ c = "("%char ->
  contains c (clause_name clause) = false.
Proof.
  unfold clause_name, strip. intros [H|[->| ->]].
  - apply strip_with_without.
    apply (split_piece_without "(" c _ _ (split_hd_In _ _)).
    apply strip_with_without.
    apply (split_piece_without "|" c _ _ (split_hd_In _ _)).
    now apply strip_with_without.
  - apply strip_with_without.
    apply (split_piece_without "(" "|" _ _ (split_hd_In _ _)).
    apply strip_with_without, split_hd_without.
  - apply strip_with_without, split_hd_without.
Qed.

(** X3: the name of an item never holds a comma, a bar or an opening
    parenthesis, and has no white space at either end. *)
Theorem item_names_are_clean (raw : string) (v : value) :
  In v (fst (decompose raw)) ->
  exists item name,
    v = VDict item /\
    dict_get "name" item = Some (VStr name) /\
    contains "," name = false /\
    contains "|" name = false /\
    contains "(" name = false /\
    strip name = name.
Proof.
  rewrite decompose_closed. cbn [fst]. intros H.
  apply in_map_iff in H as (clause & <- & Hc).
  apply filter_In in Hc as [Hc _].
  exists (primary_item (strip (hd "" (split "|" (strip clause))))),
    (clause_name clause).
  split; [reflexivity|]. split; [apply primary_item_name|].
  split; [|split; [|split]].
  - apply clause_name_clean. left.
    pose proof (split_pieces_without "," raw) as Hw.
    rewrite Forall_forall in Hw. now apply Hw.
  - apply clause_name_clean. auto.
  - apply clause_name_clean. auto.
  - unfold clause_name, strip. apply strip_with_idem.
Qed.

Lemma item_names_are_clean_witness :
  exists item name,
    VDict [("name", VStr "a"); ("version", VStr ">= 1.0")] = VDict item /\
    dict_get "name" item = Some (VStr name) /\
    contains "," name = false /\
    contains "|" name = false /\
    contains "(" name = false /\
    strip name = name.
Proof.
  apply (item_names_are_clean " a (>= 1.0) | b , c").
  simpl. auto.
Defined.


(* ================================================================== *)
(** ** The [dependencies] dict in closed form *)

Lemma dict_set_fresh {V : Type} (k : string) (v : V) (d : dict V) :
  dict_mem k d = false -> dict_set k v d = d ++ [(k, v)].
Proof.
  unfold dict_mem. induction d as [|[k' v'] r IH]; simpl; [reflexivity|].
  destruct (String.eqb k' k); [discriminate|]. intros H. now rewrite IH.
Qed.

Lemma dict_mem_app {V : Type} (k : string) (d e : dict V) :
  dict_mem k (d ++ e) = dict_mem k d || dict_mem k e.
Proof.
  unfold dict_mem. induction d as [|[k' v'] r IH]; simpl; [reflexivity|].
  destruct (String.eqb k' k); [reflexivity|exact IH].
Qed.

Lemma field_entries_keys (s : dict string) (f k : string) :
  In k (dict_keys (field_entries s f)) -> In k (field_keys f).
Proof.
  unfold field_entries, field_keys. destruct (dict_get f s) as [raw|];
    [|contradiction].
  destruct (snd (decompose raw)); simpl; tauto.
Qed.

(** On a dict that has neither of its keys, a field appends its entries. *)
Lemma field_step_fresh (s : dict string) (d : dict value) (f : string) :
  dict_mem (lower f) d = false ->
  dict_mem (lower f ++ "_aliases") d = false ->
  field_step s d f = d ++ field_entries s f.
Proof.
  intros H1 H2. unfold field_step, field_entries.
  destruct (dict_get f s) as [raw|]; [|now rewrite app_nil_r].
  destruct (decompose raw) as [deps [|a al]]; cbn [fst snd].
  - now apply dict_set_fresh.
  - rewrite (dict_set_fresh (lower f)) by assumption.
    rewrite dict_set_fresh.
    + now rewrite <- app_assoc.
    + rewrite dict_mem_app, H2. unfold dict_mem. simpl.
      destruct (String.eqb_spec (lower f) (lower f ++ "_aliases"))
        as [E|_]; [now apply lower_neq_aliases in E|reflexivity].
Qed.

Lemma fold_field_step_fresh (s : dict string) (fs : list string) :
  forall d,
    NoDup (flat_map field_keys fs) ->
    (forall k, In k (dict_keys d) -> ~ In k (flat_map field_keys fs)) ->
    fold_left (field_step s) fs d = d ++ flat_map (field_entries s) fs.
Proof.
  induction fs as [|f rest IH]; intros d Hnd Hd; cbn [fold_left flat_map].
  - now rewrite app_nil_r.
  - cbn [flat_map field_keys app] in Hnd, Hd.
    inversion Hnd as [|k1 l1 Hn1 Hnd1]; subst.
    inversion Hnd1 as [|k2 l2 Hn2 Hnd2]; subst.
    assert (Hfresh : forall k, In k (field_keys f) -> dict_mem k d = false).
    { intros k Hk. destruct (dict_mem k d) eqn:E; [|reflexivity].
      apply dict_mem_keys in E. exfalso. apply (Hd k E).
      destruct Hk as [<-|[<-|[]]]; simpl; auto. }
    rewrite field_step_fresh by (apply Hfresh; simpl; auto).
    rewrite IH, <- app_assoc; [reflexivity|exact Hnd2|].
    intros k Hk Hin. unfold dict_keys in Hk. rewrite map_app in Hk.
    apply in_app_or in Hk as [Hk|Hk].
    + apply (Hd k Hk). simpl. auto.
    + apply field_entries_keys in Hk.
      destruct Hk as [<-|[<-|[]]]; [apply Hn1; now right|now apply Hn2].
Qed.

Lemma dep_fields_keys_NoDup : NoDup (flat_map field_keys dep_fields).
Proof.
  cbv.
  repeat (constructor;
          [intros H;
           repeat (destruct H as [H|H]; [discriminate H|]); exact H|]).
  constructor.
Qed.

Lemma dependencies_of_closed (s : dict string) :
  dependencies_of s = flat_map (field_entries s) dep_fields.
Proof.
  unfold dependencies_of.
  rewrite fold_field_step_fresh; [reflexivity|apply dep_fields_keys_NoDup|].
  intros k [].
Qed.

(** X4: the [dependencies] dict of a record lists the relation kinds in the
    fixed order of [dep_fields], whatever the order of the fields in the
    stanza: for each kind that the stanza has, its items and then, if there
    are any, its aliases. *)
Theorem dependencies_in_fixed_order (s : dict string) (r : value) :
  parse_package_data s = Ret r ->
  value_get "dependencies" r =
  Some (VDict (flat_map (field_entries s) dep_fields)).
Proof.
  intros Hr. destruct (dict_get "Package" s) as [name|] eqn:Hp.
  - rewrite (parse_package_data_returns s name Hp) in Hr.
    injection Hr as <-. rewrite <- dependencies_of_closed. reflexivity.
  - rewrite (parse_package_data_raises s Hp) in Hr. discriminate Hr.
Qed.

Lemma dependencies_in_fixed_order_witness :
  exists r,
    parse_package_data
      [("Breaks", "x"); ("Package", "p"); ("Depends", "a | b")] = Ret r /\
    value_get "dependencies" r =
    Some (VDict [("depends", VList [VDict [("name", VStr "a")]]);
                 ("depends_aliases", VList [alias_entry "a" "b"]);
                 ("breaks", VList [VDict [("name", VStr "x")]])]).
Proof.
  eexists. split; [reflexivity|].
  exact (dependencies_in_fixed_order
           [("Breaks", "x"); ("Package", "p"); ("Depends", "a | b")]
           _ eq_refl).
Defined.

(* ================================================================== *)
(** ** More on the lines of a stanza *)

Section StripAround.

Variable p : ascii -> bool.
Variable x : ascii.
Hypothesis x_kept : p x = false.

Lemma lstrip_with_stop (a b : string) :
  lstrip_with p (a ++ String x b) = (lstrip_with p a ++ String x b)%string.
Proof.
  induction a as [|c r IH]; simpl; [now rewrite x_kept|].
  destruct (p c); [exact IH|reflexivity].
Qed.

Lemma rstrip_with_stop (a b : string) :
  rstrip_with p (a ++ String x b) = (a ++ String x (rstrip_with p b))%string.
Proof.
  induction a as [|c r IH]; cbn [append].
  - simpl. destruct (rstrip_with p b); [now rewrite x_kept|reflexivity].
  - cbn [rstrip_with]. rewrite IH. now destruct r.
Qed.

End StripAround.

Section StripCommute.

Variable p : ascii -> bool.

Lemma lstrip_with_idem (s : string) :
  lstrip_with p (lstrip_with p s) = lstrip_with p s.
Proof.
  destruct (lstrip_with_head p s) as [->|(c & r & -> & Hc)]; [reflexivity|].
  simpl. now rewrite Hc.
Qed.

Lemma lstrip_rstrip_with (s : string) :
  lstrip_with p (rstrip_with p s) = rstrip_with p (lstrip_with p s).
Proof.
  induction s as [|c r IH]; [reflexivity|].
  cbn [lstrip_with]. destruct (p c) eqn:Hc.
  - rewrite <- IH. cbn [rstrip_with].
    destruct (rstrip_with p r) as [|y r'] eqn:E.
    + now rewrite Hc.
    + cbn [lstrip_with]. now rewrite Hc.
  - destruct (rstrip_with_head p c r) as [E|(r' & E)].
    + simpl in E. destruct (rstrip_with p r); [|discriminate E].
      rewrite Hc in E. discriminate E.
    + rewrite E. simpl. now rewrite Hc.
Qed.

Lemma strip_with_lstrip (s : string) :
  strip_with p (lstrip_with p s) = strip_with p s.
Proof. unfold strip_with. now rewrite lstrip_with_idem. Qed.

Lemma strip_with_rstrip (s : string) :
  strip_with p (rstrip_with p s) = strip_with p s.
Proof.
  unfold strip_with. now rewrite lstrip_rstrip_with, rstrip_with_idem.
Qed.

End StripCommute.

Lemma split1_app (sep : ascii) (a b : string) :
  contains sep a = false -> split1 sep (a ++ String sep b) = [a; b].
Proof.
  induction a as [|c r IH]; simpl.
  - intros _. now rewrite Ascii.eqb_refl.
  - intros H. apply orb_false_iff in H as [Hc Hr].
    now rewrite Hc, (IH Hr).
Qed.

(** The stripped form of a line with a colon. *)
Lemma strip_field_line (k w : string) :
  strip (k ++ ":" ++ w) =
  (lstrip_with isspace k ++ String ":" (rstrip_with isspace w))%string.
Proof.
  unfold strip, strip_with.
  change (k ++ ":" ++ w)%string with (k ++ String ":" w)%string.
  rewrite lstrip_with_stop by reflexivity.
  now rewrite rstrip_with_stop by reflexivity.
Qed.

(** X5: a line is cut at its first colon: the trimmed text before it is
    the key, the trimmed text after it the value, further colons included;
    white space before the key does not make the line a continuation. *)
Theorem field_line_sets_key (head : option Z) (pk : dict value)
  (cur : dict string) (k w : string) :
  contains ":" k = false ->
  read_line head pk cur (k ++ ":" ++ w) =
  Ret (Continue pk (dict_set (strip k) (strip w) cur)).
Proof.
  intros Hk. unfold read_line. rewrite strip_field_line.
  assert (Hk' : contains ":" (lstrip_with isspace k) = false).
  { destruct (contains ":" (lstrip_with isspace k)) eqn:E; [|reflexivity].
    apply lstrip_with_within in E. congruence. }
  assert (Hne : nonempty (lstrip_with isspace k
                          ++ String ":" (rstrip_with isspace w)) = true)
    by now destruct (lstrip_with isspace k).
  rewrite Hne, contains_app. cbn [contains Ascii.eqb Bool.eqb negb].
  rewrite orb_true_r.
  pose proof (strip_not_startswith_space (k ++ ":" ++ w)) as Hsp.
  rewrite strip_field_line in Hsp. rewrite Hsp. cbn [negb andb].
  rewrite split1_app by assumption.
  unfold strip. now rewrite strip_with_lstrip, strip_with_rstrip.
Qed.

Lemma field_line_sets_key_witness :
  read_line None [] [("Package", "p")]
    ("  Homepage" ++ ":" ++ " http://x.org/a:b " ++ nl) =
  Ret (Continue [] [("Package", "p"); ("Homepage", "http://x.org/a:b")]).
Proof.
  exact (field_line_sets_key None [] [("Package", "p")]
           "  Homepage" (" http://x.org/a:b " ++ nl) eq_refl).
Defined.


(* ================================================================== *)
(** ** More on the records of a file *)

(** X6: a file in which no line sets the key ["Package"] gives no record,
    whatever else its stanzas hold, and is read to its end. *)
Theorem no_package_no_record (head : option Z) (f : list string) :
  Forall (fun raw => line_key raw <> Some "Package") f ->
  parse_packages_file f head = Ret ([], List.length f).
Proof.
  unfold parse_packages_file. intros Hf.
  enough (H : forall pk cur c,
             dict_get "Package" cur = None ->
             read_lines head pk cur c f = Ret (pk, c + List.length f))
    by (apply (H [] [] 0); reflexivity).
  induction Hf as [|raw rest Hraw _ IH]; intros pk cur c Hcur; simpl.
  - now rewrite Nat.add_0_r.
  - unfold line_key in Hraw. cbv zeta in Hraw.
    replace (c + S (List.length rest)) with (S c + List.length rest) by lia.
    destruct (nonempty (strip raw)) eqn:Hne.
    + destruct (contains ":" (strip raw)) eqn:Hc.
      * destruct (read_line_field head pk cur raw Hne Hc)
          as (key & val & Esplit & ->).
        cbn [bind]. apply IH. rewrite Esplit in Hraw.
        cbn [andb hd] in Hraw.
        rewrite dict_get_set_other; [exact Hcur|].
        intros E. apply Hraw. now rewrite E.
      * rewrite read_line_no_colon by assumption. cbn [bind]. now apply IH.
    + rewrite read_line_blank_drop by assumption. cbn [bind]. now apply IH.
Qed.

Lemma no_package_no_record_witness :
  parse_packages_file
    (text ["Source: p"; "Version: 1"; "Depends: a"; ""; "Name: q"; ""])
    (Some 1%Z) =
  Ret ([], 6).
Proof.
  apply (no_package_no_record (Some 1%Z)
           (text ["Source: p"; "Version: 1"; "Depends: a"; ""; "Name: q"; ""])).
  repeat constructor; discriminate.
Defined.

Lemma dict_set_In {V : Type} (k k' : string) (v v' : V) (d : dict V) :
  In (k', v') (dict_set k v d) -> (k', v') = (k, v) \/ In (k', v') d.
Proof.
  induction d as [|[k0 v0] r IH]; simpl.
  - intros [H|[]]. now left.
  - destruct (String.eqb_spec k0 k) as [->|Hne]; simpl.
    + intros [H|H]; [now left|right; now right].
    + intros [H|H]; [right; now left|].
      destruct (IH H) as [E|Hin]; [now left|right; now right].
Qed.

Lemma read_lines_stored (head : option Z) (f : list string) :
  forall pk cur c pk' n,
    stored_under_name pk ->
    read_lines head pk cur c f = Ret (pk', n) ->
    stored_under_name pk'.
Proof.
  induction f as [|raw rest IH]; intros pk cur c pk' n Hpk; simpl.
  - now intros [= <- <-].
  - destruct (read_line_cases head pk cur raw)
      as [(cur' & ->)|(name & record & Hname & Hrec & ->)]; cbn [bind].
    + now apply IH.
    + assert (Hpk1 : stored_under_name (dict_set name record pk)).
      { intros k r Hin. apply dict_set_In in Hin as [[= -> ->]|Hin].
        - now exists cur.
        - now apply Hpk. }
      destruct (cap_reached head _).
      * now intros [= <- <-].
      * now apply IH.
Qed.

(** X7: every entry of the dict that [parse_packages_file] returns is the
    record of a stanza with that package name: the key of the entry is the
    [name] of its record. *)
Theorem record_is_stored_under_its_name (f : list string) (head : option Z)
  (pk : dict value) (n : nat) (k : string) (r : value) :
  parse_packages_file f head = Ret (pk, n) -> In (k, r) pk ->
  value_get "name" r = Some (VStr k) /\
  exists stanza,
    dict_get "Package" stanza = Some k /\ parse_package_data stanza = Ret r.
Proof.
  unfold parse_packages_file. intros Hrun Hin.
  assert (Hst : stored_under_name pk).
  { apply (read_lines_stored head f [] [] 0 pk n); [|exact Hrun].
    intros k0 r0 []. }
  destruct (Hst k r Hin) as (stanza & Hk & Hr).
  split; [|now exists stanza].
  rewrite (parse_package_data_returns stanza k Hk) in Hr.
  now injection Hr as <-.
Qed.

Lemma record_is_stored_under_its_name_witness :
  value_get "name" (bare_record "foo" "2") = Some (VStr "foo") /\
  exists stanza,
    dict_get "Package" stanza = Some "foo" /\
    parse_package_data stanza = Ret (bare_record "foo" "2").
Proof.
  apply (record_is_stored_under_its_name (foo_file "1" ++ foo_file "2") None
           [("foo", bare_record "foo" "2")] 6 "foo" (bare_record "foo" "2")).
  - reflexivity.
  - now left.
Defined.

(** The lines read are counted one by one. *)
Lemma read_lines_consumed (head : option Z) (f : list string) :
  forall pk cur c pk' n,
    read_lines head pk cur c f = Ret (pk', n) ->
    c <= n <= c + List.length f.
Proof.
  induction f as [|raw rest IH]; intros pk cur c pk' n; simpl.
  - intros [= <- <-]. lia.
  - destruct (read_line_cases head pk cur raw)
      as [(cur' & ->)|(name & record & _ & _ & ->)]; cbn [bind].
    + intros H. apply IH in H. lia.
    + destruct (cap_reached head _).
      * intros [= <- <-]. lia.
      * intros H. apply IH in H. lia.
Qed.

(** X8: no sequence of lines makes the reader or the command raise: the
    builder is only called on a stanza that holds ["Package"].  A file gives
    a dict and the count of the lines read; [parse] dumps a list unless there
    is no file at all. *)
Theorem parse_never_raises (files : list (list string)) (head : option Z) :
  (forall f,
      exists pk n,
        parse_packages_file f head = Ret (pk, n) /\ n <= List.length f) /\
  (exists out,
      parse files head = Ret out /\ (out = None <-> files = [])).
Proof.
  split.
  - intros f. unfold parse_packages_file.
    destruct (read_lines_returns head f [] [] 0) as (pk & n & E).
    exists pk, n. split; [exact E|].
    apply read_lines_consumed in E. lia.
  - destruct files as [|f rest].
    + exists None. now split.
    + destruct (parse_appends_per_file head f rest) as (per & _ & ->).
      eexists. split; [reflexivity|]. split; discriminate.
Qed.

(* ================================================================== *)
(** ** Caps that are not positive *)

(** The cap enters the loop body through [cap_reached] alone. *)
Lemma read_line_cap_ext (h1 h2 : option Z) (pk : dict value)
  (cur : dict string) (raw : string) :
  (forall pk', cap_reached h1 pk' = cap_reached h2 pk') ->
  read_line h1 pk cur raw = read_line h2 pk cur raw.
Proof.
  intros H. unfold read_line.
  destruct (dict_item "Package" cur) as [name|key]; [|reflexivity].
  destruct (parse_package_data cur) as [record|key]; [|reflexivity].
  cbn [bind]. now rewrite H.
Qed.

Lemma read_lines_cap_ext (h1 h2 : option Z) (f : list string) :
  (forall pk', cap_reached h1 pk' = cap_reached h2 pk') ->
  forall pk cur c, read_lines h1 pk cur c f = read_lines h2 pk cur c f.
Proof.
  intros H. induction f as [|raw rest IH]; intros pk cur c; simpl;
    [reflexivity|].
  rewrite (read_line_cap_ext h1 h2 pk cur raw H).
  destruct (read_line h2 pk cur raw) as [[pk' cur'|pk']|key]; cbn [bind];
    [apply IH|reflexivity|reflexivity].
Qed.

Lemma read_lines_uncapped (f : list string) :
  forall pk cur c,
  exists pk', read_lines None pk cur c f = Ret (pk', c + List.length f).
Proof.
  induction f as [|raw rest IH]; intros pk cur c; simpl.
  - exists pk. now rewrite Nat.add_0_r.
  - replace (c + S (List.length rest)) with (S c + List.length rest) by lia.
    destruct (read_line_cases None pk cur raw)
      as [(cur' & ->)|(name & record & _ & _ & ->)]; cbn [bind cap_reached];
      apply IH.
Qed.

(** X9: a cap of zero is no cap: the file gives what it gives without a cap,
    and it is read to its last line. *)
Theorem cap_zero_is_no_cap (f : list string) :
  parse_packages_file f (Some 0%Z) = parse_packages_file f None /\
  exists pk, parse_packages_file f None = Ret (pk, List.length f).
Proof.
  unfold parse_packages_file. split.
  - now apply read_lines_cap_ext.
  - apply (read_lines_uncapped f [] [] 0).
Qed.

(** While nothing is stored, a negative cap lets the loop run; the first
    record that is stored ends it. *)
Lemma read_lines_negative_cap (h : Z) (f : list string) :
  (h < 0)%Z ->
  forall cur c,
  exists pk n,
    read_lines (Some h) [] cur c f = Ret (pk, n) /\
    ((pk = [] /\ n = c + List.length f) \/
     (exists name record,
         pk = [(name, record)] /\ c < n <= c + List.length f /\
         forall more,
           read_lines (Some h) [] cur c (firstn (n - c) f ++ more) =
           Ret (pk, n))).
Proof.
  intros Hh. induction f as [|raw rest IH]; intros cur c.
  - exists [], c. split; [reflexivity|]. left. simpl. split; [reflexivity|lia].
  - destruct (read_line_cases (Some h) [] cur raw)
      as [(cur' & E)|(name & record & _ & _ & E)].
    + destruct (IH cur' (S c)) as (pk & n & Hrun & Hcase).
      exists pk, n. cbn [read_lines]. rewrite E. cbn [bind].
      split; [exact Hrun|].
      destruct Hcase as [[-> ->]|(name & record & -> & Hn & Hmore)].
      * left. split; [reflexivity|simpl; lia].
      * right. exists name, record. split; [reflexivity|].
        split; [simpl; lia|]. intros more.
        replace (n - c) with (S (n - S c)) by lia.
        cbn [firstn app read_lines]. rewrite E. cbn [bind]. apply Hmore.
    + assert (Hcap : cap_reached (Some h) (dict_set name record []) = true).
      { unfold cap_reached. cbn [dict_set List.length].
        apply andb_true_iff. split.
        - apply negb_true_iff, Z.eqb_neq. lia.
        - apply Z.leb_le. lia. }
      rewrite Hcap in E. exists [(name, record)], (S c).
      cbn [read_lines]. rewrite E. cbn [bind]. split; [reflexivity|].
      right. exists name, record. split; [reflexivity|].
      split; [simpl; lia|]. intros more.
      replace (S c - c) with 1 by lia.
      cbn [firstn app read_lines]. rewrite E. reflexivity.
Qed.

(** X10: a negative cap stops the reader at the first record it stores: the
    file gives no record and is read to its end, or one record and nothing
    is read after the blank line that stored it. *)
Theorem negative_cap_keeps_one (h : Z) (f : list string) :
  (h < 0)%Z ->
  exists pk n,
    parse_packages_file f (Some h) = Ret (pk, n) /\
    ((pk = [] /\ n = List.length f) \/
     (exists name record,
         pk = [(name, record)] /\ 0 < n <= List.length f /\
         forall more,
           parse_packages_file (firstn n f ++ more) (Some h) = Ret (pk, n))).
Proof.
  intros Hh. unfold parse_packages_file.
  destruct (read_lines_negative_cap h f Hh [] 0) as (pk & n & Hrun & Hcase).
  exists pk, n. split; [exact Hrun|].
  rewrite Nat.sub_0_r in Hcase. exact Hcase.
Qed.

Lemma negative_cap_keeps_one_witness :
  exists pk n,
    parse_packages_file (ten_stanzas "a") (Some (-5)%Z) = Ret (pk, n) /\
    ((pk = [] /\ n = List.length (ten_stanzas "a")) \/
     (exists name record,
         pk = [(name, record)] /\ 0 < n <= List.length (ten_stanzas "a") /\
         forall more,
           parse_packages_file (firstn n (ten_stanzas "a") ++ more)
             (Some (-5)%Z) =
           Ret (pk, n))).
Proof. exact (negative_cap_keeps_one (-5) (ten_stanzas "a") eq_refl). Defined.

(* ================================================================== *)
(** ** The two passes of [parse] *)

Lemma count_all_sums (head : option Z) (files : list (list string))
  (per_file : list (dict value)) :
  files_read head files per_file ->
  count_all head files =
  Ret (List.length (flat_map dict_values per_file)).
Proof.
  unfold files_read. induction 1 as [|f pk fs ps Hf _ IH]; simpl.
  - reflexivity.
  - rewrite Hf. cbn [bind]. rewrite IH. cbn [bind].
    rewrite length_app. f_equal. f_equal. unfold dict_values.
    now rewrite length_map.
Qed.

(** X11: the first pass of [parse], which sizes the progress bar, counts
    exactly the records that the second pass dumps. *)
Theorem progress_total_is_exact (files : list (list string))
  (head : option Z) (out : list value) :
  parse files head = Ret (Some out) ->
  count_all head files = Ret (List.length out).
Proof.
  destruct files as [|f rest]; [discriminate|].
  destruct (parse_appends_per_file head f rest) as (per & Hper & ->).
  intros [= <-]. now apply count_all_sums.
Qed.

Lemma progress_total_is_exact_witness :
  count_all None [foo_file "1"; foo_file "2"] = Ret 2.
Proof.
  exact (progress_total_is_exact [foo_file "1"; foo_file "2"] None
           [bare_record "foo" "1"; bare_record "foo" "2"] eq_refl).
Defined.

(* ================================================================== *)
(** ** What the scalar fields of a record never hold *)

Lemma maintainer_name_without (m : string) :
  contains "<" (maintainer_name m) = false.
Proof.
  unfold maintainer_name. destruct (contains "<" m) eqn:E; [|exact E].
  apply strip_with_without, split_hd_without.
Qed.

Lemma maintainer_email_without (m : string) :
  contains "<" (maintainer_email m) = false.
Proof.
  unfold maintainer_email. destruct (contains "<" m); [|reflexivity].
  apply strip_with_without.
  destruct (nth_in_or_default 1 (split "<" m) "") as [Hin| ->];
    [|reflexivity].
  pose proof (split_pieces_without "<" m) as H.
  rewrite Forall_forall in H. now apply H.
Qed.

(** X12: in a record the description holds no newline, and neither the name
    nor the email of the maintainer holds a ["<"]. *)
Theorem scalar_fields_are_cut (s : dict string) (r : value) :
  parse_package_data s = Ret r ->
  exists description name email,
    value_get "description" r = Some (VStr description) /\
    contains nl_char description = false /\
    value_get "maintainer" r =
    Some (VDict [("name", VStr name); ("email", VStr email)]) /\
    contains "<" name = false /\
    contains "<" email = false.
Proof.
  intros Hr. destruct (dict_get "Package" s) as [pkg|] eqn:Hp.
  - rewrite (parse_package_data_returns s pkg Hp) in Hr. injection Hr as <-.
    eexists _, _, _. split; [reflexivity|].
    split; [apply split_hd_without|]. split; [reflexivity|].
    split; [apply maintainer_name_without|apply maintainer_email_without].
  - rewrite (parse_package_data_raises s Hp) in Hr. discriminate Hr.
Qed.

Lemma scalar_fields_are_cut_witness :
  exists description name email,
    value_get "description"
      (VDict
         [("name", VStr "p"); ("version", VStr "");
          ("dependencies", VDict []); ("description", VStr "short");
          ("maintainer",
            VDict [("name", VStr "A"); ("email", VStr "a@x> ")])]) =
    Some (VStr description) /\
    contains nl_char description = false /\
    value_get "maintainer"
      (VDict
         [("name", VStr "p"); ("version", VStr "");
          ("dependencies", VDict []); ("description", VStr "short");
          ("maintainer",
            VDict [("name", VStr "A"); ("email", VStr "a@x> ")])]) =
    Some (VDict [("name", VStr name); ("email", VStr email)]) /\
    contains "<" name = false /\
    contains "<" email = false.
Proof.
  apply (scalar_fields_are_cut
           [("Package", "p");
            ("Description", ("short" ++ nl ++ "long")%string);
            ("Maintainer", "A <a@x> <b@y>")]).
  reflexivity.
Defined.


(* ================================================================== *)
(** ** Trimmed names *)

Lemma dict_set_Forall {V : Type} (P : string * V -> Prop) (k : string) (v : V)
  (d : dict V) :
  P (k, v) -> Forall P d -> Forall P (dict_set k v d).
Proof.
  intros Hkv Hd. rewrite Forall_forall in *. intros [k' v'] Hin.
  apply dict_set_In in Hin as [->|Hin]; auto.
Qed.

Lemma trimmed_get (stanza : dict string) (k v : string) :
  trimmed stanza -> dict_get k stanza = Some v -> strip v = v.
Proof.
  unfold trimmed. induction 1 as [|[k' v'] r [_ Hv] _ IH]; simpl;
    [discriminate|].
  destruct (String.eqb k' k); [now intros [= <-]|exact IH].
Qed.

(** One line keeps the stanza and the names trimmed. *)
Lemma read_line_trimmed (head : option Z) (pk : dict value)
  (cur : dict string) (raw : string) (fl : flow) :
  trimmed cur -> names_trimmed pk ->
  read_line head pk cur raw = Ret fl ->
  match fl with
  | Continue pk' cur' => names_trimmed pk' /\ trimmed cur'
  | Break pk' => names_trimmed pk'
  end.
Proof.
  intros Hcur Hpk. destruct (nonempty (strip raw)) eqn:Hne.
  - destruct (contains ":" (strip raw)) eqn:Hc.
    + destruct (read_line_field head pk cur raw Hne Hc)
        as (key & val & _ & ->).
      intros [= <-]. split; [exact Hpk|].
      apply dict_set_Forall; [|exact Hcur].
      unfold strip. cbn [fst snd]. now rewrite !strip_with_idem.
    + rewrite read_line_no_colon by assumption. intros [= <-]. now split.
  - destruct (dict_get "Package" cur) as [name|] eqn:Hp.
    + destruct (read_line_blank_flush head pk cur raw name Hne Hp)
        as (record & _ & ->).
      assert (Hpk' : names_trimmed (dict_set name record pk)).
      { apply dict_set_Forall; [|exact Hpk].
        exact (trimmed_get cur "Package" name Hcur Hp). }
      destruct (cap_reached head _); intros [= <-];
        [exact Hpk'|split; [exact Hpk'|constructor]].
    + rewrite read_line_blank_drop by assumption. intros [= <-].
      split; [exact Hpk|constructor].
Qed.

Lemma read_lines_trimmed (head : option Z) (f : list string) :
  forall pk cur c pk' n,
    trimmed cur -> names_trimmed pk ->
    read_lines head pk cur c f = Ret (pk', n) ->
    names_trimmed pk'.
Proof.
  induction f as [|raw rest IH]; intros pk cur c pk' n Hcur Hpk; simpl.
  - now intros [= <- <-].
  - destruct (read_line head pk cur raw) as [fl|key] eqn:E; cbn [bind];
      [|discriminate].
    pose proof (read_line_trimmed head pk cur raw fl Hcur Hpk E) as Hfl.
    destruct fl as [pk1 cur1|pk1].
    + destruct Hfl. now apply IH.
    + now intros [= <- <-].
Qed.

(** X13: the package names under which a file's records are stored have no
    white space at either end, however the lines are indented or padded. *)
Theorem package_names_are_trimmed (f : list string) (head : option Z)
  (pk : dict value) (n : nat) (k : string) (r : value) :
  parse_packages_file f head = Ret (pk, n) -> In (k, r) pk -> strip k = k.
Proof.
  unfold parse_packages_file. intros Hrun Hin.
  assert (H : names_trimmed pk).
  { apply (read_lines_trimmed head f [] [] 0 pk n); [constructor..|exact Hrun]. }
  unfold names_trimmed in H. rewrite Forall_forall in H.
  exact (H (k, r) Hin).
Qed.

Lemma package_names_are_trimmed_witness : strip "foo" = "foo".
Proof.
  apply (package_names_are_trimmed
           ["  Package :   foo  " ++ nl; "Version: 1" ++ nl; nl]%string None
           [("foo", bare_record "foo" "1")] 3 "foo" (bare_record "foo" "1")).
  - reflexivity.
  - now left.
Defined.

(* ================================================================== *)
(** ** The cache of [download] *)

Lemma append_inj_l (s x y : string) : (s ++ x = s ++ y)%string -> x = y.
Proof. induction s as [|c s IH]; simpl; [auto|]. intros [= H]. auto. Qed.

Lemma append_inj_r (t : string) :
  forall a b : string, (a ++ t = b ++ t)%string -> a = b.
Proof.
  induction a as [|c a IH]; intros [|d b] H.
  - reflexivity.
  - apply (f_equal String.length) in H. simpl in H.
    rewrite length_append in H. lia.
  - apply (f_equal String.length) in H. simpl in H.
    rewrite length_append in H. lia.
  - simpl in H. injection H as -> H. f_equal. now apply IH.
Qed.

(** Two strings that are cut at the same separator agree piece by piece. *)
Lemma append_sep_inj (sep : ascii) (a b x y : string) :
  contains sep a = false -> contains sep b = false ->
  (a ++ String sep x = b ++ String sep y)%string ->
  a = b /\ x = y.
Proof.
  intros Ha Hb H. assert (Hab : a = b).
  { apply (f_equal (split sep)) in H.
    rewrite !split_app in H by assumption. now injection H. }
  subst b. split; [reflexivity|].
  apply append_inj_l in H. now injection H.
Qed.

(** X14: the cache keeps the indices apart: two triples of suite, component
    and architecture whose suites and components hold no underscore have the
    same file name only when they are the same triple. *)
Theorem cache_filename_injective (s1 c1 a1 s2 c2 a2 : string) :
  contains "_" s1 = false -> contains "_" c1 = false ->
  contains "_" s2 = false -> contains "_" c2 = false ->
  cache_filename s1 c1 a1 = cache_filename s2 c2 a2 ->
  s1 = s2 /\ c1 = c2 /\ a1 = a2.
Proof.
  unfold cache_filename. intros Hs1 Hc1 Hs2 Hc2 H.
  change (s1 ++ String "_" (c1 ++ String "_" (a1 ++ "_Packages.gz")) =
          s2 ++ String "_" (c2 ++ String "_" (a2 ++ "_Packages.gz")))%string
    in H.
  apply append_sep_inj in H as [-> H]; try assumption.
  apply append_sep_inj in H as [-> H]; try assumption.
  apply append_inj_r in H. now subst.
Qed.

Lemma cache_filename_injective_witness :
  "bookworm" = "bookworm" /\ "non-free" = "non-free" /\ "amd64" = "amd64".
Proof.
  apply (cache_filename_injective
           "bookworm" "non-free" "amd64" "bookworm" "non-free" "amd64");
    reflexivity.
Defined.

(** With an underscore two triples can meet in one file. *)
Example cache_filename_clash :
  cache_filename "a_b" "c" "amd64" = cache_filename "a" "b_c" "amd64".
Proof. reflexivity. Qed.

Section Download.

Variable w : world.
Variables mirror suite arch : string.

Let step := download_step w mirror suite arch.
Let settled := download_settled w mirror suite arch.

Lemma step_get_stable (cache : dict string) (component k v : string) :
  dict_get k cache = Some v -> dict_get k (step cache component) = Some v.
Proof.
  intros Hk. unfold step, download_step, download_packages_file.
  destruct (dict_mem (cache_filename suite component arch) cache) eqn:Hm;
    [exact Hk|].
  destruct (net w _) as [|chunks completes]; [exact Hk|].
  destruct (writable w _); [|exact Hk]. cbn [snd].
  rewrite dict_get_set_other; [exact Hk|].
  intros E. subst k. unfold dict_mem in Hm. now rewrite Hk in Hm.
Qed.

Lemma step_mem_stable (cache : dict string) (component k : string) :
  dict_mem k cache = true -> dict_mem k (step cache component) = true.
Proof.
  intros H. apply dict_mem_get in H as [v Hv]. unfold dict_mem.
  now rewrite (step_get_stable cache component k v Hv).
Qed.

Lemma settled_fixed (cache : dict string) (component : string) :
  settled component cache -> step cache component = cache.
Proof.
  unfold settled, step, download_settled, download_step,
    download_packages_file.
  intros [->|H];
    [reflexivity|].
  destruct (dict_mem _ cache); [reflexivity|].
  destruct (net w _); [reflexivity|]. now rewrite H.
Qed.

Lemma settled_after (cache : dict string) (component : string) :
  settled component (step cache component).
Proof.
  unfold settled, step, download_settled, download_step,
    download_packages_file.
  destruct (dict_mem (cache_filename suite component arch) cache) eqn:Hm;
    [now left|].
  destruct (net w _) as [|chunks completes]; [now right|].
  destruct (writable w _); [|now right].
  left. cbn [snd]. unfold dict_mem. now rewrite dict_get_set_same.
Qed.

Lemma settled_step (cache : dict string) (component other : string) :
  settled component cache -> settled component (step cache other).
Proof.
  intros [H|H]; [left; now apply step_mem_stable|now right].
Qed.

Lemma settled_fold (component : string) (l : list string) :
  forall cache,
    settled component cache -> settled component (fold_left step l cache).
Proof.
  induction l as [|c l IH]; intros cache H; simpl; [exact H|].
  now apply IH, settled_step.
Qed.

Lemma fold_settles (l : list string) :
  forall cache,
    Forall (fun c => settled c (fold_left step l cache)) l.
Proof.
  induction l as [|c l IH]; intros cache; simpl; constructor.
  - apply settled_fold, settled_after.
  - apply IH.
Qed.

Lemma fold_settled (l : list string) (cache : dict string) :
  Forall (fun c => settled c cache) l -> fold_left step l cache = cache.
Proof.
  induction 1 as [|c l Hc _ IH]; simpl; [reflexivity|].
  now rewrite (settled_fixed cache c Hc).
Qed.

Lemma fold_get_stable (l : list string) (k v : string) :
  forall cache,
    dict_get k cache = Some v -> dict_get k (fold_left step l cache) = Some v.
Proof.
  induction l as [|c l IH]; intros cache H; simpl; [exact H|].
  now apply IH, step_get_stable.
Qed.

End Download.

(** X15: [download] never replaces a file of the cache: what a file name
    held before the command it holds after it, whatever the network
    answers. *)
Theorem download_keeps_cached_files (w : world) (cache_dir : dict string)
  (suite components arch mirror name content : string) :
  dict_get name cache_dir = Some content ->
  dict_get name (download w cache_dir suite components arch mirror) =
  Some content.
Proof.
  intros H. unfold download.
  exact (fold_get_stable w mirror suite arch _ name content cache_dir H).
Qed.

Lemma download_keeps_cached_files_witness :
  dict_get "bookworm_main_amd64_Packages.gz"
    (download {| net := fun _ => Streams ["new"] true;
                 writable := fun _ => true |}
       [("bookworm_main_amd64_Packages.gz", "old")]
       "bookworm" "main,contrib" "amd64" "http://deb.debian.org/debian") =
  Some "old".
Proof.
  apply (download_keeps_cached_files
           {| net := fun _ => Streams ["new"] true;
              writable := fun _ => true |}
           [("bookworm_main_amd64_Packages.gz", "old")]).
  reflexivity.
Defined.

(** X16: a download that breaks in the middle is taken for a cached file
    the next time: the first call returns nothing and leaves the file with
    the chunks it got; every later call returns the path of that file and
    asks the network nothing. *)
Theorem broken_download_is_kept (w : world) (cache_dir : dict string)
  (mirror suite component arch : string) (chunks : list string) :
  dict_mem (cache_filename suite component arch) cache_dir = false ->
  net w (packages_url mirror suite component arch) = Streams chunks false ->
  writable w (cache_filename suite component arch) = true ->
  exists cache_dir',
    download_packages_file w cache_dir mirror suite component arch =
    (None, cache_dir') /\
    dict_get (cache_filename suite component arch) cache_dir' =
    Some (written chunks) /\
    forall w',
      download_packages_file w' cache_dir' mirror suite component arch =
      (Some (cache_filename suite component arch), cache_dir').
Proof.
  intros Hm Hnet Hw. unfold download_packages_file at 1.
  rewrite Hm, Hnet, Hw. eexists. split; [reflexivity|].
  split; [apply dict_get_set_same|].
  intros w'. unfold download_packages_file, dict_mem.
  now rewrite dict_get_set_same.
Qed.

Lemma broken_download_is_kept_witness :
  exists cache_dir',
    download_packages_file
      {| net := fun _ => Streams ["Pack"; ""; "age: p"] false;
         writable := fun _ => true |}
      [] "http://m" "bookworm" "main" "amd64" =
    (None, cache_dir') /\
    dict_get (cache_filename "bookworm" "main" "amd64") cache_dir' =
    Some "Package: p" /\
    forall w',
      download_packages_file w' cache_dir' "http://m" "bookworm" "main"
        "amd64" =
      (Some (cache_filename "bookworm" "main" "amd64"), cache_dir').
Proof.
  exact (broken_download_is_kept
           {| net := fun _ => Streams ["Pack"; ""; "age: p"] false;
              writable := fun _ => true |}
           [] "http://m" "bookworm" "main" "amd64"
           ["Pack"; ""; "age: p"] eq_refl eq_refl eq_refl).
Defined.

(** X17: [download] is idempotent: with the network answering as before, a
    second run leaves the cache as the first run left it. *)
Theorem download_twice (w : world) (cache_dir : dict string)
  (suite components arch mirror : string) :
  download w (download w cache_dir suite components arch mirror)
    suite components arch mirror =
  download w cache_dir suite components arch mirror.
Proof.
  unfold download.
  apply (fold_settled w mirror suite arch), fold_settles.
Qed.

(* ================================================================== *)
(** ** From [parse] to [scrape] *)

Lemma packages_of_stored (f : list string) (head : option Z)
  (pk : dict value) :
  packages_of f head = Ret pk -> stored_under_name pk.
Proof.
  unfold packages_of, parse_packages_file.
  destruct (read_lines head [] [] 0 f) as [[pk' n]|key] eqn:E; cbn [bind];
    [|discriminate].
  intros [= <-]. apply (read_lines_stored head f [] [] 0 pk' n); [|exact E].
  intros k r [].
Qed.

Lemma stored_values_named (pk : dict value) :
  stored_under_name pk -> Forall named (dict_values pk).
Proof.
  intros H. apply Forall_forall. intros r Hin.
  apply in_map_iff in Hin as ([k r'] & <- & Hin).
  destruct (H k r' Hin) as (stanza & Hk & Hr). exists k.
  rewrite (parse_package_data_returns stanza k Hk) in Hr.
  now injection Hr as <-.
Qed.

(** Every record that [parse] dumps has its name. *)
Lemma parse_output_named (files : list (list string)) (head : option Z)
  (out : list value) :
  parse files head = Ret (Some out) -> Forall named out.
Proof.
  destruct files as [|f rest]; [discriminate|].
  destruct (parse_appends_per_file head f rest) as (per & Hper & ->).
  intros [= <-]. unfold files_read in Hper.
  induction Hper as [|file pk fs ps Hpk _ IH]; cbn [flat_map];
    [constructor|].
  apply Forall_app. split; [|exact IH].
  now apply stored_values_named, (packages_of_stored file head).
Qed.

Lemma Forall_firstn_keeps {A : Type} (P : A -> Prop) (n : nat) (l : list A) :
  Forall P l -> Forall P (firstn n l).
Proof.
  intros H. rewrite <- (firstn_skipn n l) in H.
  now apply Forall_app in H as [H _].
Qed.

Lemma scrape_selection_keeps (P : value -> Prop) (l : list value)
  (cap : option Z) :
  Forall P l -> Forall P (scrape_selection l cap).
Proof.
  intros H. unfold scrape_selection, slice_to.
  destruct cap as [h|]; [|exact H].
  destruct (h =? 0)%Z; [exact H|].
  destruct (0 <=? h)%Z; now apply Forall_firstn_keeps.
Qed.

Lemma queried_names_named (l : list value) :
  Forall named l ->
  exists names,
    queried_names l = inr (map VStr names) /\
    Forall2 (fun r k => value_get "name" r = Some (VStr k)) l names.
Proof.
  induction 1 as [|r l [k Hk] _ (names & Hq & Hall)].
  - exists []. split; [reflexivity|constructor].
  - exists (k :: names). cbn [queried_names]. split.
    + destruct r as [s|l0|d]; try discriminate Hk.
      unfold package_name. cbn [value_get] in Hk. now rewrite Hk, Hq.
    + now constructor.
Qed.

(** X18: [scrape] reads what [parse] dumped without a failing lookup: every
    package has its ["name"], so the tracker is asked for the names of the
    selected records, in their order, and under a positive cap for no more
    names than the cap. *)
Theorem scrape_reads_parse_output (files : list (list string))
  (head cap : option Z) (out : list value) :
  parse files head = Ret (Some out) ->
  exists names,
    scrape out cap = inr (map VStr names) /\
    Forall2 (fun r k => value_get "name" r = Some (VStr k))
      (scrape_selection out cap) names /\
    (forall h, cap = Some h -> (0 < h)%Z ->
               (Z.of_nat (List.length names) <= h)%Z).
Proof.
  intros Hparse. apply parse_output_named in Hparse.
  destruct (queried_names_named (scrape_selection out cap)
              (scrape_selection_keeps named out cap Hparse))
    as (names & Hq & Hall).
  exists names. split; [exact Hq|]. split; [exact Hall|].
  intros h -> Hh. apply Forall2_length in Hall. rewrite <- Hall.
  unfold scrape_selection, slice_to.
  destruct (Z.eqb_spec h 0) as [->|_]; [lia|].
  destruct (Z.leb_spec 0 h) as [_|Hneg]; [|lia].
  pose proof (firstn_le_length (Z.to_nat h) out). rewrite length_firstn. lia.
Qed.

Lemma scrape_reads_parse_output_witness :
  exists names,
    scrape [bare_record "foo" "1"; bare_record "foo" "2"] (Some (-1)%Z) =
    inr (map VStr names) /\
    Forall2 (fun r k => value_get "name" r = Some (VStr k))
      (scrape_selection [bare_record "foo" "1"; bare_record "foo" "2"]
         (Some (-1)%Z))
      names /\
    (forall h, Some (-1)%Z = Some h -> (0 < h)%Z ->
               (Z.of_nat (List.length names) <= h)%Z).
Proof.
  exact (scrape_reads_parse_output [foo_file "1"; foo_file "2"] None
           (Some (-1)%Z) [bare_record "foo" "1"; bare_record "foo" "2"]
           eq_refl).
Defined.

(** A negative cap drops packages from the end, and a record without a name
    ends the command. *)
Example scrape_edge_cases :
  scrape [bare_record "a" "1"; bare_record "b" "1"; bare_record "c" "1"]
    (Some (-1)%Z) =
  inr [VStr "a"; VStr "b"] /\
  scrape [bare_record "a" "1"; VDict [("version", VStr "1")]] None =
  inl (NoSuchKey "name").
Proof. split; reflexivity. Qed.

(* ================================================================== *)
(** ** One file after another, in one file *)

Section DictUpdate.
Context {V : Type}.
Implicit Types (d e : dict V) (k : string) (v : V).

Lemma dict_set_twice k v v0 d :
  dict_set k v (dict_set k v0 d) = dict_set k v d.
Proof.
  induction d as [|[k' v'] r IH]; simpl.
  - now rewrite String.eqb_refl.
  - destruct (String.eqb k' k) eqn:E; simpl; rewrite E; [reflexivity|].
    now rewrite IH.
Qed.

(** Assignments to two keys commute when the first key is already there. *)
Lemma dict_set_swap k k1 v v1 d :
  k <> k1 -> dict_mem k d = true ->
  dict_set k v (dict_set k1 v1 d) = dict_set k1 v1 (dict_set k v d).
Proof.
  intros Hne. unfold dict_mem. induction d as [|[k' v'] r IH]; simpl;
    [discriminate|].
  destruct (String.eqb_spec k' k) as [->|Hk].
  - intros _. destruct (String.eqb_spec k k1) as [E|_]; [contradiction|].
    simpl. rewrite String.eqb_refl.
    destruct (String.eqb_spec k k1) as [E|_]; [contradiction|reflexivity].
  - intros Hm. destruct (String.eqb_spec k' k1) as [->|Hk1]; simpl.
    + destruct (String.eqb_spec k1 k) as [E|_]; [now symmetry in E|].
      now rewrite String.eqb_refl.
    + destruct (String.eqb_spec k' k) as [E|_]; [contradiction|].
      destruct (String.eqb_spec k' k1) as [E|_]; [contradiction|].
      now rewrite IH.
Qed.

Lemma dict_update_set_present k v d e :
  dict_mem k d = true -> ~ In k (dict_keys e) ->
  dict_set k v (dict_update d e) = dict_update (dict_set k v d) e.
Proof.
  unfold dict_update. revert d.
  induction e as [|[k1 v1] r IH]; intros d Hm Hk; cbn [fold_left fst snd];
    [reflexivity|].
  cbn [dict_keys map fst] in Hk.
  rewrite IH.
  - rewrite dict_set_swap; [reflexivity| |exact Hm].
    intros E. apply Hk. now left.
  - rewrite dict_mem_set, Hm. apply orb_true_r.
  - intros H. apply Hk. now right.
Qed.

(** Updating with a dict to which a key was assigned is updating and then
    assigning. *)
Lemma dict_update_set k v d e :
  NoDup (dict_keys e) ->
  dict_update d (dict_set k v e) = dict_set k v (dict_update d e).
Proof.
  revert d. induction e as [|[k0 v0] r IH]; intros d Hnd.
  - reflexivity.
  - cbn [dict_keys map fst] in Hnd. inversion Hnd as [|x l Hx Hr]; subst.
    cbn [dict_set]. destruct (String.eqb_spec k0 k) as [->|Hne].
    + unfold dict_update. cbn [fold_left fst snd].
      fold (dict_update (dict_set k v d) r).
      fold (dict_update (dict_set k v0 d) r).
      rewrite dict_update_set_present; [now rewrite dict_set_twice| |exact Hx].
      unfold dict_mem. now rewrite dict_get_set_same.
    + unfold dict_update. cbn [fold_left fst snd].
      fold (dict_update (dict_set k0 v0 d) (dict_set k v r)).
      fold (dict_update (dict_set k0 v0 d) r).
      now apply IH.
Qed.

End DictUpdate.

(** Without a cap a line never breaks the loop. *)
Lemma read_line_uncapped (pk : dict value) (cur : dict string)
  (raw : string) :
  exists pk' cur', read_line None pk cur raw = Ret (Continue pk' cur').
Proof.
  destruct (read_line_cases None pk cur raw)
    as [(cur' & ->)|(name & record & _ & _ & ->)]; cbn [cap_reached];
    now eexists _, _.
Qed.

(** Without a cap, what a line does to the stanza and what it stores do not
    depend on the records stored so far. *)
Lemma read_line_uniform (cur : dict string) (raw : string) :
  exists cur' (upd : option (string * value)),
    forall pk,
      read_line None pk cur raw =
      Ret (Continue
             (match upd with
              | Some (k, r) => dict_set k r pk
              | None => pk
              end) cur').
Proof.
  destruct (nonempty (strip raw)) eqn:Hne.
  - destruct (contains ":" (strip raw)) eqn:Hc.
    + destruct (split1_with ":" _ Hc) as (key & val & Hs).
      exists (dict_set (strip key) (strip val) cur), None. intros pk.
      destruct (read_line_field None pk cur raw Hne Hc)
        as (key' & val' & Hs' & ->).
      congruence.
    + exists cur, None. intros pk. now apply read_line_no_colon.
  - destruct (dict_get "Package" cur) as [name|] eqn:Hp.
    + exists [], (Some (name, match parse_package_data cur with
                            | Ret r => r
                            | KeyError _ => VStr ""
                            end)).
      intros pk.
      destruct (read_line_blank_flush None pk cur raw name Hne Hp)
        as (record & -> & ->).
      reflexivity.
    + exists [], None. intros pk. now apply read_line_blank_drop.
Qed.

(** Reading on from a dict [base] that is already filled is reading from the
    empty dict and updating [base] with the outcome. *)
Lemma read_lines_onto (base : dict value) (f : list string) :
  forall pk cur c c' pk' n,
    NoDup (dict_keys pk) ->
    read_lines None pk cur c f = Ret (pk', n) ->
    read_lines None (dict_update base pk) cur c' f =
    Ret (dict_update base pk', c' + List.length f).
Proof.
  induction f as [|raw rest IH]; intros pk cur c c' pk' n Hnd; simpl.
  - intros [= <- <-]. now rewrite Nat.add_0_r.
  - replace (c' + S (List.length rest)) with (S c' + List.length rest) by lia.
    destruct (read_line_uniform cur raw) as (cur' & upd & E).
    rewrite !E. cbn [bind]. destruct upd as [[k r]|].
    + rewrite <- dict_update_set by assumption.
      apply IH. now apply dict_set_NoDup.
    + now apply IH.
Qed.

(** After a blank line the loop goes on with an empty stanza. *)
Lemma read_lines_after_blank (g : list string) (blank : string)
  (rest : list string) :
  nonempty (strip blank) = false ->
  forall pk cur c pk1 n1,
    read_lines None pk cur c (g ++ [blank]) = Ret (pk1, n1) ->
    read_lines None pk cur c (g ++ blank :: rest) =
    read_lines None pk1 [] n1 rest.
Proof.
  intros Hb. induction g as [|raw g IH]; intros pk cur c pk1 n1;
    cbn [app read_lines].
  - destruct (read_line_uniform cur blank) as (cur' & upd & E).
    rewrite !E. cbn [bind]. intros [= <- <-].
    enough (cur' = []) as -> by reflexivity.
    specialize (E []).
    destruct (dict_get "Package" cur) as [name|] eqn:Hp.
    + destruct (read_line_blank_flush None [] cur blank name Hb Hp)
        as (record & _ & E'). cbn [cap_reached] in E'. congruence.
    + rewrite read_line_blank_drop in E by assumption. congruence.
  - destruct (read_line_uniform cur raw) as (cur' & upd & E).
    rewrite !E. cbn [bind]. apply IH.
Qed.

(** X19: without a cap, a file that ends with a blank line followed by a
    second file reads as the first file updated with the second: the records
    of the second are assigned, in their order, to the dict of the first. *)
Theorem concatenated_files_update (g : list string) (blank : string)
  (f2 : list string) (pk1 pk2 : dict value) (n1 n2 : nat) :
  nonempty (strip blank) = false ->
  parse_packages_file (g ++ [blank]) None = Ret (pk1, n1) ->
  parse_packages_file f2 None = Ret (pk2, n2) ->
  parse_packages_file ((g ++ [blank]) ++ f2) None =
  Ret (dict_update pk1 pk2, n1 + n2).
Proof.
  unfold parse_packages_file. intros Hb H1 H2.
  rewrite <- app_assoc. cbn [app].
  rewrite (read_lines_after_blank g blank f2 Hb [] [] 0 pk1 n1 H1).
  change pk1 with (dict_update pk1 []) at 1.
  rewrite (read_lines_onto pk1 f2 [] [] 0 n1 pk2 n2); [|constructor|exact H2].
  destruct (read_lines_uncapped f2 [] [] 0) as (pk & E).
  rewrite E in H2. injection H2 as _ <-. reflexivity.
Qed.

Lemma concatenated_files_update_witness :
  parse_packages_file
    ((text ["Package: foo"; "Version: 1"] ++ [nl])
     ++ text ["Package: bar"; ""; "Package: foo"; "Version: 2"; ""]) None =
  Ret (dict_update [("foo", bare_record "foo" "1")]
         [("bar", bare_record "bar" ""); ("foo", bare_record "foo" "2")],
       3 + 5).
Proof.
  apply (concatenated_files_update
           (text ["Package: foo"; "Version: 1"]) nl
           (text ["Package: bar"; ""; "Package: foo"; "Version: 2"; ""]));
    reflexivity.
Defined.


(* ================================================================== *)
(** ** Blank lines *)

Lemma lstrip_all_space (s : string) :
  all_space s = true -> lstrip_with isspace s = "".
Proof.
  induction s as [|c r IH]; simpl; [reflexivity|].
  intros H. apply andb_true_iff in H as [-> Hr]. now apply IH.
Qed.

Lemma strip_not_all_space (s : string) :
  all_space s = false -> nonempty (strip s) = true.
Proof.
  unfold strip, strip_with. induction s as [|c r IH]; simpl; [discriminate|].
  destruct (isspace c) eqn:Hc; [exact IH|]. intros _.
  cbn [rstrip_with]. rewrite Hc. now destruct (rstrip_with isspace r).
Qed.

(** X20: the lines that end a stanza are the lines made of white space: such
    a line does what the empty line does; any other line leaves the records
    as they are and the stanza in place, with at most one key set. *)
Theorem blank_lines_are_white (head : option Z) (pk : dict value)
  (cur : dict string) (raw : string) :
  if all_space raw
  then read_line head pk cur raw = read_line head pk cur ""
  else exists cur',
      read_line head pk cur raw = Ret (Continue pk cur') /\
      (cur' = cur \/ exists key val, cur' = dict_set key val cur).
Proof.
  destruct (all_space raw) eqn:Hw.
  - unfold read_line, strip, strip_with.
    now rewrite (lstrip_all_space raw Hw).
  - apply strip_not_all_space in Hw.
    destruct (contains ":" (strip raw)) eqn:Hc.
    + destruct (read_line_field head pk cur raw Hw Hc)
        as (key & val & _ & ->).
      eexists. split; [reflexivity|]. right. now eexists _, _.
    + rewrite read_line_no_colon by assumption.
      eexists. split; [reflexivity|]. now left.
Qed.

(* ================================================================== *)
(** ** Clauses that leave no trace *)

(** X21: a clause that the filter rejects, a blank one or a placeholder that
    starts with ["${"], leaves no trace: the field decomposes as it does
    without that clause. *)
Theorem rejected_clause_vanishes (a p b : string) :
  accepted p = false -> contains "," p = false ->
  decompose (a ++ "," ++ p ++ "," ++ b) = decompose (a ++ "," ++ b).
Proof.
  intros Hrej Hp. rewrite !decompose_closed.
  change (a ++ "," ++ p ++ "," ++ b)%string
    with (a ++ String "," (p ++ String "," b))%string.
  change (a ++ "," ++ b)%string with (a ++ String "," b)%string.
  rewrite !split_app_sep, (split_without "," p Hp).
  rewrite !filter_app. cbn [filter]. rewrite Hrej. reflexivity.
Qed.

Lemma rejected_clause_vanishes_witness :
  decompose ("a | b" ++ "," ++ " ${shlibs:Depends} " ++ "," ++ " c (>= 2)") =
  decompose ("a | b" ++ "," ++ " c (>= 2)").
Proof.
  apply (rejected_clause_vanishes "a | b" " ${shlibs:Depends} " " c (>= 2)");
    reflexivity.
Defined.
